(** * Lens maintenance scripts: contrast generation and bulk re-embedding

  A shallow embedding of [scripts/generate_contrasts_json.py] (class
  [ContrastGenerator]) and of the re-embedding loop of
  [apps/api/scripts/reembed_with_sentence_transformers.py], with the
  properties the specification states about them.  The audit of
  [apps/api/scripts/check_embeddings.py] is embedded as well, and further
  properties of the three scripts follow those of the specification.

  Numbers.  Python floats and NumPy float32 scalars are idealised as real
  numbers: literals such as [0.65] denote the decimal fraction, arithmetic
  is exact, and [sqrt] is the real square root.  The float values that are
  not real numbers, the infinities and nan, arise in this code only from a
  division by zero; [Np.float] keeps them apart.

  Effects.  A Python call either returns or raises: [Py.outcome].  The
  hosted store and the JSON decoder are collaborators; they are parameters
  of the model.  Logging and printing are left out. *)

From Stdlib Require Import Reals Lra Lia ZArith List String Ascii Bool Arith.
From Stdlib Require Import Sorted Permutation.
Import ListNotations.

(* ================================================================== *)
(** ** Python building blocks *)
(* ================================================================== *)

Module Py.

(** An exception is identified by the name of its class. *)
Definition exn := string.

Inductive outcome (A : Type) : Type :=
| Returns (a : A)
| Raises (e : exn).
Arguments Returns {A} a.
Arguments Raises {A} e.

Definition bind {A B : Type} (m : outcome A) (k : A -> outcome B) : outcome B :=
  match m with
  | Returns a => k a
  | Raises e => Raises e
  end.

(** [try: body  except Exception as e: handler e] *)
Definition try_except {A : Type} (body : outcome A) (handler : exn -> outcome A)
  : outcome A :=
  match body with
  | Returns a => Returns a
  | Raises e => handler e
  end.

(** What a call hands back to a caller that only looks at returned lists. *)
Definition returned {A : Type} (m : outcome (list A)) : list A :=
  match m with
  | Returns l => l
  | Raises _ => []
  end.

(** *** Comparisons and the built-ins [min], [max], [round] *)

Definition leb (x y : R) : bool := if Rle_dec x y then true else false.
Definition ltb (x y : R) : bool := if Rlt_dec x y then true else false.

(** [min(a, b)] keeps [a] unless [b < a]; [max(a, b)] keeps [a] unless
    [b > a]. *)
Definition min (a b : R) : R := if Rlt_dec b a then b else a.
Definition max (a b : R) : R := if Rlt_dec a b then b else a.

(** Nearest integer, ties to the even one. *)
Definition round_half_even (x : R) : Z :=
  let n := Zfloor x in
  let frac := (x - IZR n)%R in
  if Rlt_dec frac (1 / 2) then n
  else if Rlt_dec (1 / 2) frac then (n + 1)%Z
  else if Z.even n then n else (n + 1)%Z.

(** [round(x, ndigits)] for a non-negative [ndigits]: the nearest multiple of
    [10 ^ -ndigits], a tie going to the even one. *)
Definition round (x : R) (ndigits : nat) : R :=
  (IZR (round_half_even (x * 10 ^ ndigits)) / 10 ^ ndigits)%R.

(** *** Sequences *)

(** [l[:n]], also for a negative [n]. *)
Definition slice_to {A : Type} (l : list A) (n : Z) : list A :=
  if (0 <=? n)%Z then firstn (Z.to_nat n) l
  else firstn (List.length l - Z.to_nat (- n)) l.

(** [l.sort(key=key, reverse=True)]: descending and stable, elements with
    equal keys keep their order. *)
Fixpoint insert_desc {A : Type} (key : A -> R) (x : A) (l : list A) : list A :=
  match l with
  | [] => [x]
  | y :: l' =>
      if Rlt_dec (key x) (key y) then y :: insert_desc key x l'
      else x :: y :: l'
  end.

Definition sort_desc {A : Type} (key : A -> R) (l : list A) : list A :=
  fold_right (insert_desc key) [] l.

(** *** Strings

    Strings are sequences of 8-bit characters; [lower] folds the ASCII
    letters and leaves every other character as it is. *)

Definition lower_ascii (c : ascii) : ascii :=
  let n := nat_of_ascii c in
  if (65 <=? n)%nat && (n <=? 90)%nat then ascii_of_nat (n + 32) else c.

(** [s.lower()] *)
Fixpoint lower (s : string) : string :=
  match s with
  | EmptyString => EmptyString
  | String c rest => String (lower_ascii c) (lower rest)
  end.

(** [needle in hay] *)
Fixpoint contains (hay needle : string) : bool :=
  String.prefix needle hay
  || match hay with
     | EmptyString => false
     | String _ rest => contains rest needle
     end.

(** *** Sets of strings, kept as lists without repetition

    The order in which Python iterates over a set is not specified; here an
    intersection or difference keeps the order of its left operand. *)

Definition mem (x : string) (s : list string) : bool := existsb (String.eqb x) s.

(** [set(l)] *)
Definition set_of (l : list string) : list string := nodup string_dec l.

(** [a & b] and [a - b] *)
Definition inter (a b : list string) : list string := filter (fun x => mem x b) a.
Definition diff (a b : list string) : list string := filter (fun x => negb (mem x b)) a.

End Py.

Declare Scope py_scope.
Delimit Scope py_scope with py.
Notation "x <- m ;; k" := (Py.bind m (fun x => k))
(at level 61, m at next level, right associativity) : py_scope.

(* ================================================================== *)
(** ** NumPy building blocks *)
(* ================================================================== *)

Module Np.
Import Py.
Local Open Scope R_scope.

(** A float32 scalar: a number, an infinity, or nan. *)
Inductive float : Type :=
| Finite (x : R)
| Inf (negative : bool)
| NaN.

Definition sum (v : list R) : R := fold_right Rplus 0 v.

(** [np.dot(v1, v2)] on one-dimensional arrays; shapes that differ raise. *)
Definition dot (v1 v2 : list R) : outcome R :=
  if (List.length v1 =? List.length v2)%nat
  then Returns (sum (map (fun p => fst p * snd p) (combine v1 v2)))
  else Raises "ValueError"%string.

(** [np.linalg.norm(v)] *)
Definition norm (v : list R) : R := sqrt (sum (map (fun x => x * x) v)).

(** Scalar division: dividing by zero warns and yields nan for [0/0] and an
    infinity otherwise; it does not raise. *)
Definition divide (x y : R) : float :=
  if Req_dec_T y 0
  then (if Req_dec_T x 0 then NaN else Inf (ltb x 0))
  else Finite (x / y).

(** [a - f] for a Python float [a] *)
Definition rsub (a : R) (f : float) : float :=
  match f with
  | Finite x => Finite (a - x)
  | Inf negative => Inf (negb negative)
  | NaN => NaN
  end.

End Np.


(* ================================================================== *)
(** ** Data model *)
(* ================================================================== *)

(** A row of the [lenses] table, as [load_lenses] selects it. *)
Module Lens.
Record t : Type := make {
  id : string;
  name : string;
  definition : string;
  related_concepts : list string;
  lens_type : string
}.
End Lens.

(** An entry of ['connections'] in the existing-relationships file;
    [c.get('type')] is [None] when the key is missing. *)
Module Connection.
Record t : Type := make {
  source_id : string;
  target_id : string;
  type : option string
}.
End Connection.

(** The [embedding] column of one row as the store delivers it: SQL null, a
    native array of numbers, or text. *)
Inductive column : Type :=
| Null
| Array (xs : list R)
| Text (s : string).

(** Python truthiness of such a value: [None], [[]] and [''] are falsy. *)
Definition truthy (c : column) : bool :=
  match c with
  | Null => false
  | Array xs => match xs with [] => false | _ :: _ => true end
  | Text s => negb (String.eqb s "")
  end.

(** An entry of the list [find_contrast_candidates] builds. *)
Module Candidate.
Record t : Type := make {
  lens : Lens.t;
  distance : R;
  dialectic_score : R;
  combined_score : R;
  shared_concepts : list string
}.
End Candidate.

Module Metadata.
Record t : Type := make {
  distance : R;
  dialectic_score : R;
  combined_score : R;
  shared_concepts : list string;
  generated_by : string
}.
End Metadata.

(** A generated contrast record. *)
Module Contrast.
Record t : Type := make {
  source_id : string;
  target_id : string;
  weight : R;
  type : string;
  insight : string;
  metadata : Metadata.t
}.
End Contrast.

(** The state of a [ContrastGenerator] after [__init__].  [supabase] answers
    the query [table('lenses').select('embedding').eq('id', lens_id)
    .single().execute()]: it raises, or returns [response.data]'s embedding,
    [None] standing for an empty [response.data]. *)
Record ContrastGenerator : Type := {
  supabase : string -> Py.outcome (option column);
  lenses : list Lens.t;
  existing_contrasts : list Connection.t
}.

(* ================================================================== *)
(** ** scripts/generate_contrasts_json.py *)
(* ================================================================== *)

Section Generator.
Import Py Np.
Local Open Scope string_scope.
Local Open Scope R_scope.
Local Open Scope py_scope.

(** [json.loads] followed by the conversion [np.array(_, dtype=np.float32)]:
    library code that yields the numeric sequence a text encodes or raises. *)
Variable json_loads : string -> outcome (list R).

(** [load_existing_contrasts], from the file's ['connections']. *)
Definition load_existing_contrasts (connections : list Connection.t)
  : list Connection.t :=
  filter (fun c => match Connection.type c with
                   | Some ty => String.eqb ty "contrast"
                   | None => false
                   end) connections.

(** [__init__], given the collaborators' answers. *)
Definition init (client : string -> outcome (option column))
  (rows : list Lens.t) (connections : list Connection.t) : ContrastGenerator :=
  {| supabase := client;
     lenses := rows;
     existing_contrasts := load_existing_contrasts connections |}.

Definition covered_ids (self : ContrastGenerator) : list string :=
  flat_map (fun contrast => [Connection.source_id contrast; Connection.target_id contrast])
           (existing_contrasts self).

Definition get_uncovered_lenses (self : ContrastGenerator) : list Lens.t :=
  filter (fun lens => negb (mem (Lens.id lens) (covered_ids self))) (lenses self).

Definition get_lens_embedding (self : ContrastGenerator) (lens_id : string)
  : outcome (option (list R)) :=
  try_except
    (data <- supabase self lens_id ;;
     match data with
     | Some embedding =>
         if truthy embedding then
           match embedding with
           | Text s => decoded <- json_loads s ;; Returns (Some decoded)
           | Array xs => Returns (Some xs)
           | Null => Returns None
           end
         else Returns None
     | None => Returns None
     end)
    (fun _ => Returns None).

Definition cosine_distance (v1 v2 : list R) : outcome float :=
  dot_product <- dot v1 v2 ;;
  let norm1 := norm v1 in
  let norm2 := norm v2 in
  let similarity := divide dot_product (norm1 * norm2) in
  Returns (rsub 1 similarity).

Definition dialectic_pairs : list (string * string) :=
  [ ("centralized", "decentralized");
    ("control", "freedom");
    ("stability", "change");
    ("conservative", "liberal");
    ("individual", "collective");
    ("short-term", "long-term");
    ("reactive", "proactive");
    ("top-down", "bottom-up");
    ("rigid", "flexible");
    ("specialized", "generalized");
    ("compete", "cooperate");
    ("open", "closed");
    ("fast", "slow");
    ("explicit", "implicit");
    ("formal", "informal") ].

(** The test of the loop of [calculate_dialectic_score] for one pair. *)
Definition opposed (source_def target_def : string) (pair : string * string) : bool :=
  let '(word1, word2) := pair in
  (contains source_def word1 && contains target_def word2)
  || (contains source_def word2 && contains target_def word1).

Definition calculate_dialectic_score (source_lens target_lens : Lens.t) : R :=
  let source_def := lower (Lens.definition source_lens) in
  let target_def := lower (Lens.definition target_lens) in
  let score :=
    fold_left (fun score pair =>
                 if opposed source_def target_def pair then score + 0.2 else score)
              dialectic_pairs 0 in
  Py.min score 1.

Definition generic_concepts : list string :=
  [ "core concepts"; "systems thinking"; "thinking"; "concepts";
    "strategy"; "management"; "leadership"; "organizational" ].

(** [set(c.lower() for c in lens.get('related_concepts', []))] *)
Definition concept_set (lens : Lens.t) : list string :=
  set_of (map lower (Lens.related_concepts lens)).

Definition has_existing (self : ContrastGenerator) (source_lens target_lens : Lens.t)
  : bool :=
  existsb (fun c =>
             (String.eqb (Connection.source_id c) (Lens.id source_lens)
              && String.eqb (Connection.target_id c) (Lens.id target_lens))
             || (String.eqb (Connection.target_id c) (Lens.id source_lens)
                 && String.eqb (Connection.source_id c) (Lens.id target_lens)))
          (existing_contrasts self).

(** What one turn of the loop of [find_contrast_candidates] does with its
    target: leave it at one of the three [continue]s, or fetch its embedding
    and evaluate [cosine_distance], after which the target is appended to
    [candidates] ([Some]) or not. *)
Inductive visit : Type :=
| SkipSelf
| SkipExisting
| SkipNoEmbedding
| Measured (target_embedding : list R) (distance : float)
           (admitted : option Candidate.t).

(** The end of the loop body, from the shared concepts on: the entry that is
    appended to [candidates], if any.  Every comparison with nan is false,
    and an infinity is outside the band. *)
Definition judge (source_lens : Lens.t) (source_concepts : list string)
  (target_lens : Lens.t) (distance : float) : option Candidate.t :=
  let target_concepts := concept_set target_lens in
  let shared_concepts := inter source_concepts target_concepts in
  let specific_shared := diff shared_concepts generic_concepts in
  let has_meaningful_shared :=
    (1 <=? List.length specific_shared)%nat
    || (2 <=? List.length shared_concepts)%nat in
  match distance with
  | Finite d =>
      if leb 0.65 d && leb d 0.92 && has_meaningful_shared then
        let dialectic_score := calculate_dialectic_score source_lens target_lens in
        let combined_score := d * 0.7 + dialectic_score * 0.3 in
        Some (Candidate.make target_lens d dialectic_score combined_score
                shared_concepts)
      else None
  | Inf _ | NaN => None
  end.

Definition visit_target (self : ContrastGenerator) (source_lens : Lens.t)
  (source_embedding : list R) (source_concepts : list string)
  (target_lens : Lens.t) : outcome visit :=
  if String.eqb (Lens.id target_lens) (Lens.id source_lens) then Returns SkipSelf
  else if has_existing self source_lens target_lens then Returns SkipExisting
  else
    fetched <- get_lens_embedding self (Lens.id target_lens) ;;
    match fetched with
    | None => Returns SkipNoEmbedding
    | Some target_embedding =>
        distance <- cosine_distance source_embedding target_embedding ;;
        Returns (Measured target_embedding distance
                   (judge source_lens source_concepts target_lens distance))
    end.

(** The [for target_lens in self.lenses] loop, [candidates] being the list
    built so far. *)
Fixpoint scan (self : ContrastGenerator) (source_lens : Lens.t)
  (source_embedding : list R) (source_concepts : list string)
  (targets : list Lens.t) (candidates : list Candidate.t)
  : outcome (list Candidate.t) :=
  match targets with
  | [] => Returns candidates
  | target_lens :: rest =>
      v <- visit_target self source_lens source_embedding source_concepts target_lens ;;
      match v with
      | Measured _ _ (Some c) =>
          scan self source_lens source_embedding source_concepts rest (candidates ++ [c])
      | _ => scan self source_lens source_embedding source_concepts rest candidates
      end
  end.

Definition find_contrast_candidates (self : ContrastGenerator)
  (source_lens : Lens.t) (limit : Z) : outcome (list Candidate.t) :=
  fetched <- get_lens_embedding self (Lens.id source_lens) ;;
  match fetched with
  | None => Returns []
  | Some source_embedding =>
      let source_concepts := concept_set source_lens in
      candidates <- scan self source_lens source_embedding source_concepts
                         (lenses self) [] ;;
      Returns (slice_to (sort_desc Candidate.combined_score candidates) limit)
  end.

Definition generate_insight (source_lens target_lens : Lens.t) (distance : R)
  (shared_concepts : list string) : string :=
  let source_name := Lens.name source_lens in
  let target_name := Lens.name target_lens in
  let source_def := substring 0 100 (Lens.definition source_lens) in
  let target_def := substring 0 100 (Lens.definition target_lens) in
  String.concat ""
    [ source_name; " and "; target_name; " represent contrasting perspectives ";
      "within "; String.concat ", " shared_concepts; ". ";
      "While "; source_name; " focuses on "; source_def; "..., ";
      target_name; " emphasizes "; target_def; "... ";
      "Together they map complementary approaches to the same domain." ].

(** The two lines of [generate_contrasts] that compute [weight]. *)
Definition contrast_weight (combined_score : R) : R :=
  let weight := 0.80 + (combined_score - 0.45) * 0.30 in
  Py.max 0.80 (Py.min 0.95 (round weight 2)).

(** The record [generate_contrasts] assembles from a source and its best
    candidate. *)
Definition contrast_of (source_lens : Lens.t) (best : Candidate.t) : Contrast.t :=
  let target_lens := Candidate.lens best in
  let distance := Candidate.distance best in
  let dialectic_score := Candidate.dialectic_score best in
  let combined_score := Candidate.combined_score best in
  let shared_concepts := Candidate.shared_concepts best in
  let insight := generate_insight source_lens target_lens distance shared_concepts in
  let weight := contrast_weight combined_score in
  Contrast.make (Lens.id source_lens) (Lens.id target_lens) weight "contrast" insight
    (Metadata.make (round distance 3) (round dialectic_score 3)
       (round combined_score 3) shared_concepts "generate_contrasts_json.py").

(** The [for source_lens in uncovered] loop, [new_contrasts] being the list
    built so far. *)
Fixpoint process (self : ContrastGenerator) (uncovered : list Lens.t)
  (new_contrasts : list Contrast.t) : outcome (list Contrast.t) :=
  match uncovered with
  | [] => Returns new_contrasts
  | source_lens :: rest =>
      candidates <- find_contrast_candidates self source_lens 3 ;;
      match candidates with
      | [] => process self rest new_contrasts
      | best :: _ => process self rest (new_contrasts ++ [contrast_of source_lens best])
      end
  end.

(** [limit] is [None] or an integer; [if limit:] holds for a nonzero one. *)
Definition generate_contrasts (self : ContrastGenerator) (limit : option Z)
  : outcome (list Contrast.t) :=
  let uncovered := get_uncovered_lenses self in
  let uncovered :=
    match limit with
    | Some n => if (n =? 0)%Z then uncovered else slice_to uncovered n
    | None => uncovered
    end in
  process self uncovered [].

End Generator.

(* ================================================================== *)
(** ** apps/api/scripts/reembed_with_sentence_transformers.py *)
(* ================================================================== *)

Section Reembed.
Import Py.
Local Open Scope string_scope.
Local Open Scope py_scope.

(** The state of the hosted store, and the two collaborators the loop calls:
    [store.generate_query_embedding(text)] and
    [store.client.table('lenses').update({'embedding': e}).eq('id', i).execute()].
    A call that raises leaves the store as it was. *)
Variable database : Type.
Variable generate_query_embedding : string -> outcome (list R).
Variable update_embedding : database -> string -> list R -> outcome database.

(** The loop's variables. *)
Record progress : Type := {
  store : database;
  updated : nat;
  errors : nat
}.

(** The body of the [try] up to the update. *)
Definition embed_one (db : database) (lens : Lens.t) : outcome database :=
  let text := Lens.name lens ++ ": " ++ Lens.definition lens in
  embedding <- generate_query_embedding text ;;
  update_embedding db (Lens.id lens) embedding.

(** One turn of the loop: [try: ... updated += 1  except Exception: errors += 1;
    continue]. *)
Definition reembed_step (st : progress) (lens : Lens.t) : progress :=
  match embed_one (store st) lens with
  | Returns db => {| store := db; updated := S (updated st); errors := errors st |}
  | Raises _ => {| store := store st; updated := updated st; errors := S (errors st) |}
  end.

Definition reembed_loop (lenses : list Lens.t) (st : progress) : progress :=
  fold_left reembed_step lenses st.

(** How a call of [reembed_lenses] ends: [sys.exit(1)], the early return of a
    dry run with the names it printed, or the final report. *)
Inductive report : Type :=
| Exited (code : Z)
| DryRun (sample : list string)
| Complete (final : progress).

(** [local_model] is the truth of [store.local_model]; [select_lenses] is the
    answer to the query for all lenses; [db] is the store at the start. *)
Definition reembed_lenses (local_model : bool) (select_lenses : outcome (list Lens.t))
  (db : database) (limit : option Z) (dry_run : bool) : outcome report :=
  if negb local_model then Returns (Exited 1)
  else
    lenses <- select_lenses ;;
    let lenses :=
      match limit with
      | Some n => if (n =? 0)%Z then lenses else slice_to lenses n
      | None => lenses
      end in
    if dry_run then Returns (DryRun (map Lens.name (slice_to lenses 5)))
    else Returns (Complete (reembed_loop lenses {| store := db; updated := 0; errors := 0 |})).

End Reembed.

Arguments store {database} _.
Arguments updated {database} _.
Arguments errors {database} _.
Arguments Build_progress {database} _ _ _.
Arguments Exited {database} _.
Arguments DryRun {database} _.
Arguments Complete {database} _.
Arguments embed_one {database} _ _ _ _.
Arguments reembed_step {database} _ _ _ _.
Arguments reembed_loop {database} _ _ _ _.
Arguments reembed_lenses {database} _ _ _ _ _ _ _.

(* ================================================================== *)
(** ** apps/api/scripts/check_embeddings.py *)
(* ================================================================== *)

(** A row of the [lenses] table, as [check_embeddings] selects it. *)
Module LensRow.
Record t : Type := make {
  id : string;
  name : string;
  embedding : column
}.
End LensRow.

(** The dictionary [check_embeddings] returns. *)
Module Stats.
Record t : Type := make {
  total : nat;
  with_embeddings : list LensRow.t;
  null_embeddings : list LensRow.t;
  without_embeddings : list LensRow.t
}.
End Stats.

Section CheckEmbeddings.
Import Py.
Local Open Scope string_scope.
Local Open Scope py_scope.

(** [create_client(url, key)] and the query
    [table('lenses').select('id, name, embedding').execute()], whose
    [response.data] is the list of rows. *)
Variable client : Type.
Variable create_client : string -> string -> outcome client.
Variable select_lenses : client -> outcome (list LensRow.t).

(** One turn of the analysis loop, on the three lists
    ([with_embeddings], [null_embeddings], [without_embeddings]). *)
Definition classify (lists : list LensRow.t * list LensRow.t * list LensRow.t)
  (lens : LensRow.t) : list LensRow.t * list LensRow.t * list LensRow.t :=
  let '(with_embeddings, null_embeddings, without_embeddings) := lists in
  match LensRow.embedding lens with
  | Null => (with_embeddings, null_embeddings ++ [lens], without_embeddings)%list
  | Array (_ :: _) => (with_embeddings ++ [lens], null_embeddings, without_embeddings)%list
  | Array [] | Text _ =>
      (with_embeddings, null_embeddings, without_embeddings ++ [lens])%list
  end.

(** [supabase_url] and [supabase_key] are the answers of [os.getenv]; an
    unset or empty variable ends the call with [None] before the store is
    contacted. *)
Definition check_embeddings (supabase_url supabase_key : option string)
  : outcome (option Stats.t) :=
  match supabase_url, supabase_key with
  | Some url, Some key =>
      if String.eqb url "" || String.eqb key "" then Returns None
      else
        supabase <- create_client url key ;;
        lenses <- select_lenses supabase ;;
        let '(with_embeddings, null_embeddings, without_embeddings) :=
          fold_left classify lenses ([], [], []) in
        Returns (Some (Stats.make (List.length lenses) with_embeddings
                         null_embeddings without_embeddings))
  | _, _ => Returns None
  end.

End CheckEmbeddings.

Arguments check_embeddings {client} _ _ _ _.

(* ================================================================== *)
(** ** The specification's own wording, for comparison with the code *)
(* ================================================================== *)

(** [needle] occurs in [hay]. *)
Definition Substring (needle hay : string) : Prop :=
  exists before after : string, hay = (before ++ needle ++ after)%string.

(** Section 4.3: one definition contains one member of the pair and the other
    definition contains the other member. *)
Definition Opposed (source_def target_def : string) (pair : string * string) : Prop :=
  (Substring (fst pair) source_def /\ Substring (snd pair) target_def)
  \/ (Substring (snd pair) source_def /\ Substring (fst pair) target_def).

(** Section 4.5: the linear map, clamped to the target range, then rounded to
    two decimal places. *)
Definition spec_weight (combined_score : R) : R :=
  Py.round (Rmax 0.80 (Rmin 0.95 (0.80 + (combined_score - 0.45) * 0.30))) 2.

(** Section 4.4 (d): the admission filter. *)
Definition spec_admission (d : R) (specific_shared shared : nat) : Prop :=
  (0.65 <= d <= 0.92)%R /\ (1 <= specific_shared \/ 2 <= shared)%nat.

(** The number of opposing pairs found across the definitions of two lenses:
    the pairs of the table for which the loop of [calculate_dialectic_score]
    adds its increment. *)
Definition opposed_count (source_lens target_lens : Lens.t) : nat :=
  List.length (filter (opposed (Py.lower (Lens.definition source_lens))
                          (Py.lower (Lens.definition target_lens))) dialectic_pairs).

(* ================================================================== *)
(** ** Concrete inputs *)
(* ================================================================== *)

(** A decoder that accepts nothing. *)
Definition no_json (s : string) : Py.outcome (list R) :=
  Py.Raises "JSONDecodeError"%string.

(** Section 8's end-to-end scenario: two lenses, embeddings at cosine
    distance 0.75, no existing relationship. *)
Module Scenario.
Import Py.
Local Open Scope string_scope.
Local Open Scope R_scope.
Definition lens_A : Lens.t :=
  Lens.make "A" "Oversight" "AI under human control" ["ai"; "control"] "concept".
Definition lens_B : Lens.t :=
  Lens.make "B" "Autonomy" "AI and human freedom" ["ai"; "freedom"] "concept".
Definition embedding_A : list R := [1; 0; 0; 0; 0].
Definition embedding_B : list R := [1; 3; 2; 1; 1].
Definition client (lens_id : string) : outcome (option column) :=
  if String.eqb lens_id "A" then Returns (Some (Array embedding_A))
  else if String.eqb lens_id "B" then Returns (Some (Array embedding_B))
  else Raises "APIError".
Definition generator : ContrastGenerator := init client [lens_A; lens_B] [].
End Scenario.

(** Two definitions across which six of the opposing pairs are found. *)
Definition six_pairs_source : Lens.t :=
  Lens.make "s" "S"
    "Centralized control, stability, conservative, individual, short-term" [] "".
Definition six_pairs_target : Lens.t :=
  Lens.make "t" "T"
    "Decentralized freedom; change; liberal; collective; long-term" [] "".

(** Three lenses: P and Q at cosine distance 0.8 with one shared concept that
    is not generic, and Z whose stored embedding is the zero vector.  [fresh]
    holds the three with no existing contrast, [linked] holds P and Q with an
    existing contrast between Q and P, and [partly_linked] holds the three
    with an existing contrast between Q and Z and two connections between P
    and Q that are no contrasts. *)
Module Band.
Import Py.
Local Open Scope string_scope.
Local Open Scope R_scope.
Definition lens_P : Lens.t :=
  Lens.make "P" "Planning" "Plans drawn up in advance" ["Economics"; "Strategy"] "concept".
Definition lens_Q : Lens.t :=
  Lens.make "Q" "Emergence" "Order that nobody designed" ["economics"] "concept".
Definition lens_Z : Lens.t :=
  Lens.make "Z" "Blank" "Nothing embedded yet" ["economics"] "concept".
Definition embedding_P : list R := [1; 0; 0; 0].
Definition embedding_Q : list R := [1; 4; 2; 2].
Definition embedding_Z : list R := [0; 0; 0; 0].
Definition client (lens_id : string) : outcome (option column) :=
  if String.eqb lens_id "P" then Returns (Some (Array embedding_P))
  else if String.eqb lens_id "Q" then Returns (Some (Array embedding_Q))
  else if String.eqb lens_id "Z" then Returns (Some (Array embedding_Z))
  else Raises "APIError".
Definition fresh : ContrastGenerator := init client [lens_P; lens_Q; lens_Z] [].
Definition linked : ContrastGenerator :=
  init client [lens_P; lens_Q] [Connection.make "Q" "P" (Some "contrast")].
Definition partly_linked : ContrastGenerator :=
  init client [lens_P; lens_Q; lens_Z]
    [ Connection.make "Q" "Z" (Some "contrast");
      Connection.make "P" "Q" (Some "similar");
      Connection.make "Q" "P" None ].
End Band.

(** A store that counts its writes and an embedder that fails on one lens. *)
Module Reembedding.
Import Py.
Local Open Scope string_scope.
Definition generate_query_embedding (text : string) : outcome (list R) :=
  if String.eqb text "Broken: cannot be embedded" then Raises "RuntimeError"
  else Returns [1%R].
Definition update_embedding (db : nat) (lens_id : string) (e : list R) : outcome nat :=
  Returns (S db).
Definition good1 : Lens.t := Lens.make "1" "First" "a lens" [] "concept".
Definition broken : Lens.t := Lens.make "2" "Broken" "cannot be embedded" [] "concept".
Definition good2 : Lens.t := Lens.make "3" "Third" "another lens" [] "concept".
End Reembedding.

(** Two lenses whose stored embeddings have different lengths. *)
Module Mismatch.
Import Py.
Local Open Scope string_scope.
Local Open Scope R_scope.
Definition lens_M : Lens.t :=
  Lens.make "M" "Markets" "Prices carry information" ["economics"] "concept".
Definition lens_N : Lens.t :=
  Lens.make "N" "Norms" "Rules nobody wrote down" ["economics"] "concept".
Definition client (lens_id : string) : outcome (option column) :=
  if String.eqb lens_id "M" then Returns (Some (Array [1; 0]))
  else if String.eqb lens_id "N" then Returns (Some (Array [1; 0; 0]))
  else Raises "APIError".
Definition generator : ContrastGenerator := init client [lens_M; lens_N] [].
End Mismatch.

(** A lens the store of [Band] has no row for. *)
Definition lens_W : Lens.t :=
  Lens.make "W" "Waiting" "Not yet embedded" ["economics"%string] "concept".

(** A source lens S and two lenses it can be contrasted with: T at cosine
    distance 0.8, whose definition opposes nothing in that of S, and U at
    distance 0.75, whose definition speaks of freedom where that of S speaks
    of control. *)
Module Ranked.
Import Py.
Local Open Scope string_scope.
Local Open Scope R_scope.
Definition lens_S : Lens.t :=
  Lens.make "S" "Steering" "Strict control of every step" ["economics"] "concept".
Definition lens_T : Lens.t :=
  Lens.make "T" "Tradition" "Habits handed down" ["economics"] "concept".
Definition lens_U : Lens.t :=
  Lens.make "U" "Improvisation" "Freedom to improvise" ["economics"] "concept".
Definition embedding_S : list R := [1; 0; 0; 0; 0].
Definition embedding_T : list R := [1; 4; 2; 2; 0].
Definition embedding_U : list R := [1; 3; 2; 1; 1].
Definition client (lens_id : string) : outcome (option column) :=
  if String.eqb lens_id "S" then Returns (Some (Array embedding_S))
  else if String.eqb lens_id "T" then Returns (Some (Array embedding_T))
  else if String.eqb lens_id "U" then Returns (Some (Array embedding_U))
  else Raises "APIError".
Definition generator : ContrastGenerator := init client [lens_S; lens_T; lens_U] [].
End Ranked.

(** Rows as the audit sees them: one with a native array, one with SQL null,
    one with an empty array and one whose embedding arrives as text; and a
    decoder that knows this one text. *)
Module Coverage.
Import Py.
Local Open Scope string_scope.
Local Open Scope R_scope.
Definition row_native : LensRow.t := LensRow.make "lens_1" "Native" (Array [1; 0]).
Definition row_null : LensRow.t := LensRow.make "lens_2" "Missing" Null.
Definition row_empty : LensRow.t := LensRow.make "lens_3" "Empty" (Array []).
Definition row_text : LensRow.t :=
  LensRow.make "lens_4" "Encoded" (Text "[0.5, 1]").
Definition rows : list LensRow.t := [row_native; row_null; row_empty; row_text].
Definition create_client (url key : string) : outcome unit := Returns tt.
Definition select_lenses (supabase : unit) : outcome (list LensRow.t) := Returns rows.
Definition json_loads (s : string) : outcome (list R) :=
  if String.eqb s "[0.5, 1]" then Returns [0.5; 1] else Raises "JSONDecodeError".
Definition supabase (lens_id : string) : outcome (option column) :=
  match find (fun row => String.eqb (LensRow.id row) lens_id) rows with
  | Some row => Returns (Some (LensRow.embedding row))
  | None => Raises "APIError"
  end.
Definition generator : ContrastGenerator := init supabase [] [].
End Coverage.

(* ================================================================== *)
(** ** Proof automation *)
(* ================================================================== *)

(** The norm of a vector of literals whose squares add up to a square. *)
Ltac norm_is := unfold Np.norm; simpl; apply sqrt_lem_1; lra.

(** Splits on every comparison of reals the goal tests and closes the
    branches that contradict linear arithmetic. *)
Ltac case_compare :=
  repeat match goal with
         | |- context [Rlt_dec ?a ?b] => destruct (Rlt_dec a b); try lra
         | |- context [Rle_dec ?a ?b] => destruct (Rle_dec a b); try lra
         end.


(* ================================================================== *)
(** * Properties *)
(* ================================================================== *)

Import Py Np.
Local Open Scope string_scope.
Local Open Scope R_scope.
Local Open Scope py_scope.

(* ------------------------------------------------------------------ *)
(** ** Comparisons, clamping and rounding *)
(* ------------------------------------------------------------------ *)

Lemma leb_true (x y : R) : leb x y = true <-> x <= y.
Proof. unfold leb. destruct (Rle_dec x y); split; intros; try easy. Qed.

Lemma leb_false (x y : R) : leb x y = false <-> y < x.
Proof. unfold leb. destruct (Rle_dec x y); split; intros; try easy; lra. Qed.

Lemma min_spec (a b : R) : Py.min a b = Rmin a b.
Proof. unfold Py.min, Rmin. destruct (Rlt_dec b a), (Rle_dec a b); lra. Qed.

Lemma max_spec (a b : R) : Py.max a b = Rmax a b.
Proof. unfold Py.max, Rmax. destruct (Rlt_dec a b), (Rle_dec a b); lra. Qed.

(** [round_half_even] picks an integer at distance at most one half. *)
Lemma round_half_even_near (x : R) :
  IZR (round_half_even x) - 1 / 2 <= x <= IZR (round_half_even x) + 1 / 2.
Proof.
  unfold round_half_even.
  pose proof (Zfloor_bound x) as [Hlo Hhi].
  destruct (Rlt_dec (x - IZR (Zfloor x)) (1 / 2)); [lra|].
  destruct (Rlt_dec (1 / 2) (x - IZR (Zfloor x))).
  - rewrite plus_IZR. lra.
  - destruct (Z.even (Zfloor x)); [|rewrite plus_IZR]; lra.
Qed.

Lemma round_half_even_IZR (k : Z) : round_half_even (IZR k) = k.
Proof.
  unfold round_half_even. rewrite ZfloorZ.
  destruct (Rlt_dec (IZR k - IZR k) (1 / 2)); [reflexivity | lra].
Qed.

(** It does not cross an integer: the rounding is monotone at integers. *)
Lemma round_half_even_ge (k : Z) (x : R) : IZR k <= x -> (k <= round_half_even x)%Z.
Proof.
  intros H. pose proof (round_half_even_near x) as [_ Hhi].
  assert (IZR k < IZR (round_half_even x + 1)) as Hlt by (rewrite plus_IZR; lra).
  apply lt_IZR in Hlt. lia.
Qed.

Lemma round_half_even_le (k : Z) (x : R) : x <= IZR k -> (round_half_even x <= k)%Z.
Proof.
  intros H. pose proof (round_half_even_near x) as [Hlo _].
  assert (IZR (round_half_even x) < IZR (k + 1)) as Hlt by (rewrite plus_IZR; lra).
  apply lt_IZR in Hlt. lia.
Qed.

Lemma round_half_even_floor (k : Z) (x : R) :
  IZR k <= x < IZR k + 1 / 2 -> round_half_even x = k.
Proof.
  intros H. unfold round_half_even.
  assert (Zfloor x = k) as -> by (apply Zfloor_eq; lra).
  destruct (Rlt_dec (x - IZR k) (1 / 2)); [reflexivity | lra].
Qed.

Lemma pow10_pos (n : nat) : 0 < 10 ^ n.
Proof. apply pow_lt. lra. Qed.

(** A number with at most [n] decimals is its own rounding. *)
Lemma round_exact (k : Z) (x : R) (n : nat) : x * 10 ^ n = IZR k -> round x n = x.
Proof.
  intros H. unfold round. rewrite H, round_half_even_IZR, <- H.
  pose proof (pow10_pos n). field. lra.
Qed.

Lemma round_ge (k : Z) (x : R) (n : nat) :
  IZR k / 10 ^ n <= x -> IZR k / 10 ^ n <= round x n.
Proof.
  intros H. unfold round. pose proof (pow10_pos n) as Hp.
  apply Rmult_le_compat_r with (r := / 10 ^ n).
  - left. now apply Rinv_0_lt_compat.
  - apply IZR_le, round_half_even_ge.
    apply Rmult_le_reg_r with (r := / 10 ^ n); [now apply Rinv_0_lt_compat|].
    replace (x * 10 ^ n * / 10 ^ n) with x by (field; lra). exact H.
Qed.

Lemma round_le (k : Z) (x : R) (n : nat) :
  x <= IZR k / 10 ^ n -> round x n <= IZR k / 10 ^ n.
Proof.
  intros H. unfold round. pose proof (pow10_pos n) as Hp.
  apply Rmult_le_compat_r with (r := / 10 ^ n).
  - left. now apply Rinv_0_lt_compat.
  - apply IZR_le, round_half_even_le.
    apply Rmult_le_reg_r with (r := / 10 ^ n); [now apply Rinv_0_lt_compat|].
    replace (x * 10 ^ n * / 10 ^ n) with x by (field; lra). exact H.
Qed.

(** The clamp of [generate_contrasts] lands in its range whatever it is given. *)
Lemma contrast_weight_range (combined_score : R) :
  0.80 <= contrast_weight combined_score <= 0.95.
Proof.
  unfold contrast_weight, Py.max, Py.min.
  set (r := round _ 2).
  destruct (Rlt_dec r 0.95), (Rlt_dec 0.80 r); try lra;
    destruct (Rlt_dec 0.80 0.95); lra.
Qed.

(** Rounding first and clamping second, as the code does, is clamping first
    and rounding second, as section 4.5 words it: the bounds have two
    decimals, and rounding does not cross them. *)
Lemma contrast_weight_spec (combined_score : R) :
  contrast_weight combined_score = spec_weight combined_score.
Proof.
  unfold contrast_weight, spec_weight.
  set (w := 0.80 + (combined_score - 0.45) * 0.30).
  assert (H80 : round 0.80 2 = 0.80) by (apply (round_exact 80); lra).
  assert (H95 : round 0.95 2 = 0.95) by (apply (round_exact 95); lra).
  assert (Hlo : 0.80 <= w -> 0.80 <= round w 2)
    by (intros H; pose proof (round_ge 80 w 2); lra).
  assert (Hhi : w <= 0.95 -> round w 2 <= 0.95)
    by (intros H; pose proof (round_le 95 w 2); lra).
  assert (Hlo' : w <= 0.80 -> round w 2 <= 0.80)
    by (intros H; pose proof (round_le 80 w 2); lra).
  assert (Hhi' : 0.95 <= w -> 0.95 <= round w 2)
    by (intros H; pose proof (round_ge 95 w 2); lra).
  rewrite max_spec, min_spec.
  destruct (Rle_dec 0.95 w) as [Hw|Hw].
  - rewrite (Rmin_left 0.95 w), (Rmax_right 0.80 0.95), H95 by lra.
    rewrite Rmin_left, Rmax_right by (try apply Hhi'; lra). reflexivity.
  - destruct (Rle_dec 0.80 w) as [Hw'|Hw'].
    + rewrite (Rmin_right 0.95 w), (Rmax_right 0.80 w) by lra.
      rewrite Rmin_right, Rmax_right by (try apply Hhi; try apply Hlo; lra).
      reflexivity.
    + rewrite (Rmin_right 0.95 w), (Rmax_left 0.80 w), H80 by lra.
      assert (round w 2 <= 0.80) by (apply Hlo'; lra).
      rewrite Rmin_right, Rmax_left by lra. reflexivity.
Qed.

(** The numbers of the end-to-end scenario. *)
Lemma round_0200 : round 0.2 3 = 0.2.
Proof. apply (round_exact 200). lra. Qed.

Lemma round_0585 : round (0.75 * 0.7 + 0.2 * 0.3) 3 = 0.585.
Proof. transitivity (0.75 * 0.7 + 0.2 * 0.3); [apply (round_exact 585)|]; lra. Qed.

Lemma weight_0585 : contrast_weight (0.75 * 0.7 + 0.2 * 0.3) = 0.84.
Proof.
  unfold contrast_weight, round.
  rewrite (round_half_even_floor 84) by lra.
  rewrite max_spec, min_spec, Rmin_right, Rmax_right; lra.
Qed.

Create HintDb scenario_numbers.
#[local] Hint Resolve round_0200 round_0585 weight_0585 : scenario_numbers.

(* ------------------------------------------------------------------ *)
(** ** Dot product, norm and cosine distance *)
(* ------------------------------------------------------------------ *)

Lemma sum_squares_nonneg (v : list R) : 0 <= sum (map (fun x => x * x) v).
Proof.
  induction v as [|x v IH]; simpl; [lra|].
  pose proof (Rle_0_sqr x) as Hx. unfold Rsqr in Hx. lra.
Qed.

Lemma norm_sqr (v : list R) : norm v * norm v = sum (map (fun x => x * x) v).
Proof. apply sqrt_sqrt, sum_squares_nonneg. Qed.

Lemma sum_squares_zero (v : list R) :
  sum (map (fun x => x * x) v) = 0 -> Forall (fun x => x = 0) v.
Proof.
  induction v as [|x v IH]; simpl; intros H; constructor;
    pose proof (sum_squares_nonneg v); pose proof (Rle_0_sqr x) as Hx;
    unfold Rsqr in Hx.
  - assert (x * x = 0) as Hxx by lra.
    apply Rmult_integral in Hxx. tauto.
  - apply IH. lra.
Qed.

(** Only the zero vector has norm zero. *)
Lemma norm_zero (v : list R) : norm v = 0 -> Forall (fun x => x = 0) v.
Proof.
  intros H. apply sum_squares_zero, sqrt_eq_0; [apply sum_squares_nonneg | exact H].
Qed.

Lemma products_zero (v w : list R) :
  Forall (fun x => x = 0) v -> sum (map (fun p => fst p * snd p) (combine v w)) = 0.
Proof.
  intros H. revert w. induction H as [|x v Hx _ IH]; intros [|y w]; simpl; try lra.
  rewrite IH, Hx. lra.
Qed.

Lemma products_swap (v w : list R) :
  sum (map (fun p => fst p * snd p) (combine v w))
  = sum (map (fun p => fst p * snd p) (combine w v)).
Proof.
  revert w. induction v as [|x v IH]; intros [|y w]; simpl; try reflexivity.
  rewrite IH. lra.
Qed.

Lemma dot_comm (v w : list R) : dot v w = dot w v.
Proof.
  unfold dot. rewrite (Nat.eqb_sym (List.length w)).
  destruct (List.length v =? List.length w)%nat; [|reflexivity].
  now rewrite products_swap.
Qed.

Lemma dot_self (v : list R) : dot v v = Returns (sum (map (fun x => x * x) v)).
Proof.
  unfold dot. rewrite Nat.eqb_refl. f_equal.
  induction v as [|x v IH]; simpl; [reflexivity | now rewrite IH].
Qed.

(** [np.dot] returns exactly on vectors of one length. *)
Lemma dot_returns (v w : list R) :
  List.length v = List.length w <-> exists x, dot v w = Returns x.
Proof.
  unfold dot. split.
  - intros ->. rewrite Nat.eqb_refl. eauto.
  - intros [x H].
    destruct (Nat.eqb_spec (List.length v) (List.length w)); [assumption | discriminate].
Qed.

(** A zero divisor comes with a zero dividend: the division is [0/0]. *)
Lemma dot_zero_norm (v w : list R) (x : R) :
  norm v * norm w = 0 -> dot v w = Returns x -> x = 0.
Proof.
  intros Hn Hd. apply Rmult_integral in Hn. destruct Hn as [Hn | Hn].
  - unfold dot in Hd. destruct (List.length v =? List.length w)%nat; [|discriminate].
    injection Hd as <-. apply products_zero, norm_zero, Hn.
  - rewrite dot_comm in Hd.
    unfold dot in Hd. destruct (List.length w =? List.length v)%nat; [|discriminate].
    injection Hd as <-. apply products_zero, norm_zero, Hn.
Qed.

Lemma cosine_distance_comm (v w : list R) : cosine_distance v w = cosine_distance w v.
Proof.
  unfold cosine_distance. rewrite (dot_comm v w), (Rmult_comm (norm v)). reflexivity.
Qed.

Lemma cosine_distance_finite (v w : list R) (x : R) :
  dot v w = Returns x -> norm v * norm w <> 0 ->
  cosine_distance v w = Returns (Finite (1 - x / (norm v * norm w))).
Proof.
  intros Hd Hn. unfold cosine_distance. rewrite Hd. simpl.
  unfold divide. destruct (Req_dec_T (norm v * norm w) 0); [contradiction | reflexivity].
Qed.

Lemma cosine_distance_nan (v w : list R) (d : float) :
  norm v * norm w = 0 -> cosine_distance v w = Returns d -> d = NaN.
Proof.
  intros Hn. unfold cosine_distance.
  destruct (dot v w) as [x|e] eqn:Hd; simpl; [|discriminate].
  intros H. injection H as <-.
  rewrite (dot_zero_norm _ _ _ Hn Hd). unfold divide.
  destruct (Req_dec_T (norm v * norm w) 0); [|contradiction].
  destruct (Req_dec_T 0 0); [reflexivity | lra].
Qed.

Lemma cosine_distance_self (v : list R) :
  norm v <> 0 -> cosine_distance v v = Returns (Finite 0).
Proof.
  intros Hn. rewrite (cosine_distance_finite _ _ _ (dot_self v)).
  - rewrite norm_sqr. do 2 f_equal. rewrite <- norm_sqr. field. exact Hn.
  - intros H. apply Rmult_integral in H. tauto.
Qed.


(** The norms and distances of the concrete inputs. *)

Lemma norm_3_4 : norm [3; 4] = 5.
Proof. norm_is. Qed.

Lemma norm_4_3 : norm [4; 3] = 5.
Proof. norm_is. Qed.

Lemma norm_scenario_A : norm Scenario.embedding_A = 1.
Proof. norm_is. Qed.

Lemma norm_scenario_B : norm Scenario.embedding_B = 4.
Proof. norm_is. Qed.

Lemma norm_band_P : norm Band.embedding_P = 1.
Proof. norm_is. Qed.

Lemma norm_band_Q : norm Band.embedding_Q = 5.
Proof. norm_is. Qed.

Lemma norm_band_Z : norm Band.embedding_Z = 0.
Proof. norm_is. Qed.

Lemma scenario_distance :
  cosine_distance Scenario.embedding_A Scenario.embedding_B = Returns (Finite 0.75).
Proof.
  rewrite (cosine_distance_finite _ _ (1 * 1 + (0 * 3 + (0 * 2 + (0 * 1 + (0 * 1 + 0)))))).
  - rewrite norm_scenario_A, norm_scenario_B. do 2 f_equal. lra.
  - reflexivity.
  - rewrite norm_scenario_A, norm_scenario_B. lra.
Qed.

Lemma band_distance :
  cosine_distance Band.embedding_P Band.embedding_Q = Returns (Finite 0.8).
Proof.
  rewrite (cosine_distance_finite _ _ (1 * 1 + (0 * 4 + (0 * 2 + (0 * 2 + 0))))).
  - rewrite norm_band_P, norm_band_Q. do 2 f_equal. lra.
  - reflexivity.
  - rewrite norm_band_P, norm_band_Q. lra.
Qed.

Lemma zero_distance :
  cosine_distance Band.embedding_P Band.embedding_Z = Returns NaN.
Proof.
  destruct (cosine_distance Band.embedding_P Band.embedding_Z) as [d|e] eqn:H.
  - f_equal. apply (cosine_distance_nan Band.embedding_P Band.embedding_Z d); [|exact H].
    rewrite norm_band_Z. lra.
  - discriminate.
Qed.


(* ------------------------------------------------------------------ *)
(** ** Substrings and the dialectic score *)
(* ------------------------------------------------------------------ *)

Lemma prefix_app (needle hay : string) :
  String.prefix needle hay = true <-> exists rest : string, hay = needle ++ rest.
Proof.
  revert hay. induction needle as [|c needle IH]; intros hay.
  - split; [intros _; now exists hay | intros _; now destruct hay].
  - destruct hay as [|c' hay]; simpl.
    + split; [discriminate | intros [rest H]; discriminate].
    + destruct (ascii_dec c c') as [->|Hne].
      * rewrite IH. split; intros [rest H]; exists rest.
        -- now rewrite H.
        -- now injection H.
      * split; [discriminate | intros [rest H]; injection H as H _; congruence].
Qed.

Lemma contains_cons (c : ascii) (hay needle : string) :
  contains (String c hay) needle
  = String.prefix needle (String c hay) || contains hay needle.
Proof. reflexivity. Qed.

Lemma contains_empty (needle : string) :
  contains EmptyString needle = String.prefix needle EmptyString || false.
Proof. reflexivity. Qed.

(** [contains] decides the occurrence of [needle] in [hay]. *)
Lemma contains_Substring (hay needle : string) :
  contains hay needle = true <-> Substring needle hay.
Proof.
  unfold Substring. split.
  - induction hay as [|c hay IH].
    + rewrite contains_empty, orb_true_iff. intros [H|H]; [|discriminate].
      apply prefix_app in H as [rest H]. now exists EmptyString, rest.
    + rewrite contains_cons, orb_true_iff. intros [H|H].
      * apply prefix_app in H as [rest H]. now exists EmptyString, rest.
      * destruct (IH H) as (before & rest & ->). now exists (String c before), rest.
  - intros (before & rest & ->).
    induction before as [|c before IH].
    + assert (String.prefix needle (needle ++ rest) = true) as Hp
        by (apply prefix_app; now exists rest).
      change (EmptyString ++ needle ++ rest) with (needle ++ rest).
      destruct (needle ++ rest).
      * now rewrite contains_empty, Hp.
      * now rewrite contains_cons, Hp.
    + change (String c before ++ needle ++ rest)
        with (String c (before ++ needle ++ rest)).
      rewrite contains_cons, IH. apply orb_true_r.
Qed.

Lemma opposed_Opposed (s t : string) (pair : string * string) :
  opposed s t pair = true <-> Opposed s t pair.
Proof.
  destruct pair as [w1 w2]. unfold opposed, Opposed. simpl.
  rewrite orb_true_iff, !andb_true_iff, !contains_Substring. reflexivity.
Qed.

Lemma opposed_sym (s t : string) (pair : string * string) :
  opposed t s pair = opposed s t pair.
Proof.
  destruct pair as [w1 w2]. unfold opposed.
  rewrite orb_comm, (andb_comm (contains t w2)), (andb_comm (contains t w1)).
  reflexivity.
Qed.

(** The loop adds one increment per pair found. *)
Lemma score_fold (s t : string) (pairs : list (string * string)) (acc : R) :
  fold_left (fun score pair => if opposed s t pair then score + 0.2 else score) pairs acc
  = acc + 0.2 * INR (List.length (filter (opposed s t) pairs)).
Proof.
  revert acc. induction pairs as [|p pairs IH]; intros acc; simpl.
  - lra.
  - rewrite IH. destruct (opposed s t p); simpl List.length; [rewrite S_INR|]; lra.
Qed.

Lemma dialectic_score_count (source_lens target_lens : Lens.t) :
  calculate_dialectic_score source_lens target_lens
  = Rmin (0.2 * INR (opposed_count source_lens target_lens)) 1.
Proof.
  unfold calculate_dialectic_score, opposed_count.
  rewrite score_fold, min_spec. f_equal. lra.
Qed.

Lemma dialectic_score_sym (a b : Lens.t) :
  calculate_dialectic_score a b = calculate_dialectic_score b a.
Proof.
  rewrite !dialectic_score_count. unfold opposed_count.
  do 4 f_equal. apply filter_ext. intros p. apply opposed_sym.
Qed.

(** The score when "control"/"freedom" is the one pair found. *)
Lemma only_control_freedom (source_lens target_lens : Lens.t) :
  contains (lower (Lens.definition source_lens)) "control" = true ->
  contains (lower (Lens.definition target_lens)) "freedom" = true ->
  (forall pair, In pair dialectic_pairs -> pair <> ("control", "freedom") ->
                opposed (lower (Lens.definition source_lens))
                        (lower (Lens.definition target_lens)) pair = false) ->
  calculate_dialectic_score source_lens target_lens = 0.2.
Proof.
  intros Hc Hf Hother. rewrite dialectic_score_count.
  assert (opposed_count source_lens target_lens = 1%nat) as ->.
  { unfold opposed_count, dialectic_pairs.
    repeat match goal with
    | |- context [filter ?f (("control", "freedom") :: ?l)] =>
        change (filter f (("control", "freedom") :: l))
          with (if f ("control", "freedom") then ("control", "freedom") :: filter f l
                else filter f l);
        replace (f ("control", "freedom")) with true
          by (unfold opposed; now rewrite Hc, Hf)
    | |- context [filter ?f (?p :: ?l)] =>
        change (filter f (p :: l)) with (if f p then p :: filter f l else filter f l);
        rewrite (Hother p) by (first [simpl; tauto | discriminate])
    end.
    reflexivity. }
  simpl INR. rewrite Rmin_left; lra.
Qed.

Lemma scenario_other_pairs (pair : string * string) :
  In pair dialectic_pairs -> pair <> ("control", "freedom") ->
  opposed (lower (Lens.definition Scenario.lens_A))
          (lower (Lens.definition Scenario.lens_B)) pair = false.
Proof.
  intros Hin Hne. unfold dialectic_pairs in Hin. simpl in Hin.
  repeat (destruct Hin as [<-|Hin]; [first [reflexivity | now elim Hne]|]).
  destruct Hin.
Qed.

(** C4.  For every two lenses, the dialectic score of their case-folded
    definitions is 0.2 times the number of the 15 opposing pairs found across
    them, capped at 1: a pair is found exactly when one definition contains
    one member as a substring and the other definition contains the other
    member, in either assignment.  "a centralized system" against
    "a decentralized network" scores 0.2, and the score is 1 whenever more
    than 5 pairs are found. *)
Theorem dialectic_score_counts_pairs :
  forall source_lens target_lens : Lens.t,
    let source_def := lower (Lens.definition source_lens) in
    let target_def := lower (Lens.definition target_lens) in
    calculate_dialectic_score source_lens target_lens
    = Rmin (0.2 * INR (opposed_count source_lens target_lens)) 1
    /\ (forall pair, opposed source_def target_def pair = true
                     <-> Opposed source_def target_def pair)
    /\ List.length dialectic_pairs = 15%nat
    /\ calculate_dialectic_score
         (Lens.make "a" "A" "a centralized system" [] "")
         (Lens.make "b" "B" "a decentralized network" [] "") = 0.2
    /\ ((5 < opposed_count source_lens target_lens)%nat ->
        calculate_dialectic_score source_lens target_lens = 1).
Proof.
  intros source_lens target_lens source_def target_def.
  split; [apply dialectic_score_count|].
  split; [intros pair; apply opposed_Opposed|].
  split; [reflexivity|].
  split.
  - rewrite dialectic_score_count.
    replace (opposed_count _ _) with 1%nat by (vm_compute; reflexivity).
    simpl INR. rewrite Rmin_left; lra.
  - intros H. rewrite dialectic_score_count.
    apply lt_INR in H. simpl INR in H.
    rewrite Rmin_right; lra.
Qed.

(** C4 at two definitions across which six pairs are found. *)
Lemma dialectic_score_counts_pairs_witness :
  calculate_dialectic_score six_pairs_source six_pairs_target = 1.
Proof.
  apply (dialectic_score_counts_pairs six_pairs_source six_pairs_target).
  vm_compute. lia.
Defined.

(* ------------------------------------------------------------------ *)
(** ** Ranking, truncation and the admission step *)
(* ------------------------------------------------------------------ *)

Lemma insert_desc_In {A : Type} (key : A -> R) (x y : A) (l : list A) :
  In y (insert_desc key x l) <-> y = x \/ In y l.
Proof.
  induction l as [|z l IH]; simpl.
  - intuition.
  - destruct (Rlt_dec (key x) (key z)); simpl; rewrite ?IH; intuition.
Qed.

(** Sorting keeps the elements. *)
Lemma sort_desc_In {A : Type} (key : A -> R) (y : A) (l : list A) :
  In y (sort_desc key l) <-> In y l.
Proof.
  induction l as [|x l IH]; simpl; [reflexivity|].
  rewrite insert_desc_In, IH. intuition.
Qed.

Lemma firstn_member {A : Type} (y : A) (n : nat) (l : list A) :
  In y (firstn n l) -> In y l.
Proof.
  intros H. rewrite <- (firstn_skipn n l). apply in_or_app. now left.
Qed.

(** A slice adds nothing. *)
Lemma slice_to_In {A : Type} (y : A) (l : list A) (n : Z) :
  In y (slice_to l n) -> In y l.
Proof.
  unfold slice_to. destruct (0 <=? n)%Z; apply firstn_member.
Qed.

Lemma judge_Finite (source_lens : Lens.t) (source_concepts : list string)
  (target_lens : Lens.t) (d : R) :
  judge source_lens source_concepts target_lens (Finite d)
  = if leb 0.65 d && leb d 0.92
       && ((1 <=? List.length (diff (inter source_concepts (concept_set target_lens))
                                 generic_concepts))%nat
           || (2 <=? List.length (inter source_concepts (concept_set target_lens)))%nat)
    then Some (Candidate.make target_lens d
                 (calculate_dialectic_score source_lens target_lens)
                 (d * 0.7 + calculate_dialectic_score source_lens target_lens * 0.3)
                 (inter source_concepts (concept_set target_lens)))
    else None.
Proof. reflexivity. Qed.

(** An admitted candidate is the target that was judged. *)
Lemma judge_lens (source_lens : Lens.t) (source_concepts : list string)
  (target_lens : Lens.t) (d : float) (c : Candidate.t) :
  judge source_lens source_concepts target_lens d = Some c ->
  Candidate.lens c = target_lens.
Proof.
  unfold judge. destruct d as [x| |]; try discriminate.
  destruct (_ && _); [|discriminate]. intros H. now injection H as <-.
Qed.

(** The test of [judge] is the admission filter of section 4.4 (d). *)
Lemma judge_spec (source_lens : Lens.t) (source_concepts : list string)
  (target_lens : Lens.t) (d : R) :
  (exists c, judge source_lens source_concepts target_lens (Finite d) = Some c)
  <-> spec_admission d
        (List.length (diff (inter source_concepts (concept_set target_lens))
                         generic_concepts))
        (List.length (inter source_concepts (concept_set target_lens))).
Proof.
  rewrite judge_Finite. unfold spec_admission.
  destruct (leb 0.65 d) eqn:H1; [apply leb_true in H1 | apply leb_false in H1];
    (destruct (leb d 0.92) eqn:H2; [apply leb_true in H2 | apply leb_false in H2]);
    cbn [andb].
  2-4: split; [intros [c H]; discriminate | intros [[? ?] _]; lra].
  match goal with |- context [(?x || ?y)%bool] => destruct (x || y)%bool eqn:H3 end.
  - apply orb_true_iff in H3. rewrite !Nat.leb_le in H3.
    split; [intros _; split; [lra | exact H3] | intros _; eauto].
  - apply orb_false_iff in H3. rewrite !Nat.leb_gt in H3.
    split; [intros [c H]; discriminate | intros [_ [H|H]]; lia].
Qed.

(** No existing contrast found means none covers the pair. *)
Lemma has_existing_false (self : ContrastGenerator) (source_lens target_lens : Lens.t) :
  has_existing self source_lens target_lens = false ->
  forall e : Connection.t,
    In e (existing_contrasts self) ->
    ~ ((Connection.source_id e = Lens.id source_lens
        /\ Connection.target_id e = Lens.id target_lens)
       \/ (Connection.source_id e = Lens.id target_lens
           /\ Connection.target_id e = Lens.id source_lens)).
Proof.
  unfold has_existing. intros H e He Hcov.
  assert (existsb
            (fun c =>
               (String.eqb (Connection.source_id c) (Lens.id source_lens)
                && String.eqb (Connection.target_id c) (Lens.id target_lens))
               || (String.eqb (Connection.target_id c) (Lens.id source_lens)
                   && String.eqb (Connection.source_id c) (Lens.id target_lens)))
            (existing_contrasts self) = true) as Ht.
  { apply existsb_exists. exists e. split; [exact He|].
    destruct Hcov as [[-> ->]|[-> ->]]; rewrite !String.eqb_refl; simpl;
      [reflexivity | apply orb_true_r]. }
  congruence.
Qed.

(* ------------------------------------------------------------------ *)
(** ** The contrast generator *)
(* ------------------------------------------------------------------ *)

Section ContrastGeneratorFacts.
Variable json_loads : string -> outcome (list R).

(** *** The embedding accessor *)

Lemma get_lens_embedding_cases (self : ContrastGenerator) (lens_id : string) :
  get_lens_embedding json_loads self lens_id
  = Returns match supabase self lens_id with
            | Returns (Some (Array (x :: xs))) => Some (x :: xs)
            | Returns (Some (Text s)) =>
                if String.eqb s "" then None
                else match json_loads s with
                     | Returns decoded => Some decoded
                     | Raises _ => None
                     end
            | _ => None
            end.
Proof.
  unfold get_lens_embedding.
  destruct (supabase self lens_id) as [[[|[|x xs]|s]|]|e]; simpl; try reflexivity.
  destruct (String.eqb s ""); simpl; [reflexivity|].
  destruct (json_loads s); reflexivity.
Qed.


(** *** One turn of the candidate loop *)

Lemma visit_self (self : ContrastGenerator) (source_lens : Lens.t)
  (vs : list R) (concepts : list string) :
  visit_target json_loads self source_lens vs concepts source_lens = Returns SkipSelf.
Proof. unfold visit_target. now rewrite String.eqb_refl. Qed.

(** A turn evaluates [cosine_distance] exactly when it passed the three
    [continue]s. *)
Lemma visit_target_measured (self : ContrastGenerator) (source_lens : Lens.t)
  (source_embedding : list R) (source_concepts : list string)
  (target_lens : Lens.t) (emb : list R) (d : float) (adm : option Candidate.t) :
  visit_target json_loads self source_lens source_embedding source_concepts target_lens
  = Returns (Measured emb d adm)
  <-> Lens.id target_lens <> Lens.id source_lens
      /\ has_existing self source_lens target_lens = false
      /\ get_lens_embedding json_loads self (Lens.id target_lens) = Returns (Some emb)
      /\ cosine_distance source_embedding emb = Returns d
      /\ adm = judge source_lens source_concepts target_lens d.
Proof.
  unfold visit_target.
  destruct (String.eqb_spec (Lens.id target_lens) (Lens.id source_lens)) as [He|He].
  { split; [discriminate | tauto]. }
  destruct (has_existing self source_lens target_lens).
  { split; [discriminate | intros (_ & H & _); discriminate]. }
  destruct (get_lens_embedding json_loads self (Lens.id target_lens)) as [[emb'|]|e]; simpl.
  - destruct (cosine_distance source_embedding emb') as [d'|e] eqn:Hd; simpl.
    + split.
      * intros H. injection H as -> -> <-. rewrite Hd. tauto.
      * intros (_ & _ & H1 & H2 & ->). injection H1 as ->. rewrite Hd in H2.
        now injection H2 as ->.
    + split; [discriminate|]. intros (_ & _ & H1 & H2 & _). injection H1 as ->.
      rewrite Hd in H2. discriminate.
  - split; [discriminate | intros (_ & _ & H & _); discriminate].
  - split; [discriminate | intros (_ & _ & H & _); discriminate].
Qed.

(** *** The candidate loop *)

(** The loop returns what it was given followed by the candidates its turns
    admitted. *)
Lemma scan_spec (self : ContrastGenerator) (source_lens : Lens.t)
  (source_embedding : list R) (source_concepts : list string)
  (targets : list Lens.t) (acc cs : list Candidate.t) :
  scan json_loads self source_lens source_embedding source_concepts targets acc
  = Returns cs ->
  forall c, In c cs <->
    In c acc
    \/ exists target emb d,
         In target targets
         /\ visit_target json_loads self source_lens source_embedding
              source_concepts target = Returns (Measured emb d (Some c)).
Proof.
  revert acc. induction targets as [|t targets IH]; intros acc; simpl.
  - intros H. injection H as <-. intros c. split; [tauto|].
    intros [H|(t & _ & _ & [] & _)]. exact H.
  - destruct (visit_target json_loads self source_lens source_embedding
                source_concepts t) as [v|e] eqn:Hv; simpl; [|discriminate].
    assert (Hskip : (forall emb d c, v <> Measured emb d (Some c)) ->
      scan json_loads self source_lens source_embedding source_concepts targets acc
      = Returns cs ->
      forall c, In c cs <->
        In c acc
        \/ exists target emb d,
             (t = target \/ In target targets)
             /\ visit_target json_loads self source_lens source_embedding
                  source_concepts target = Returns (Measured emb d (Some c))).
    { intros Hn H c. rewrite (IH _ H c). split.
      - intros [Ha|(t' & emb & d & Hin & Ht')]; [tauto|]. right. exists t', emb, d. tauto.
      - intros [Ha|(t' & emb & d & [<-|Hin] & Ht')]; [tauto| |].
        + rewrite Hv in Ht'. injection Ht' as ->. now destruct (Hn emb d c).
        + right. exists t', emb, d. tauto. }
    destruct v as [| | |emb d [c0|]]; try (apply Hskip; discriminate).
    intros H c. rewrite (IH _ H c), in_app_iff. simpl. split.
    + intros [[Ha|[<-|[]]]|(t' & emb' & d' & Hin & Ht')].
      * tauto.
      * right. exists t, emb, d. tauto.
      * right. exists t', emb', d'. tauto.
    + intros [Ha|(t' & emb' & d' & [<-|Hin] & Ht')].
      * tauto.
      * rewrite Hv in Ht'. injection Ht' as _ _ ->. tauto.
      * right. exists t', emb', d'. tauto.
Qed.

(** Every candidate [find_contrast_candidates] returns was admitted by a turn
    of the loop on one of the lenses. *)
Lemma find_contrast_candidates_In (self : ContrastGenerator) (source_lens : Lens.t)
  (limit : Z) (cs : list Candidate.t) (c : Candidate.t) :
  find_contrast_candidates json_loads self source_lens limit = Returns cs ->
  In c cs ->
  exists source_embedding emb d,
    In (Candidate.lens c) (lenses self)
    /\ visit_target json_loads self source_lens source_embedding
         (concept_set source_lens) (Candidate.lens c) = Returns (Measured emb d (Some c)).
Proof.
  unfold find_contrast_candidates.
  destruct (get_lens_embedding json_loads self (Lens.id source_lens)) as [[vs|]|e];
    simpl; try discriminate.
  - destruct (scan json_loads self source_lens vs (concept_set source_lens)
                (lenses self) []) as [scanned|e] eqn:Hs; simpl; [|discriminate].
    intros H Hin. injection H as <-.
    apply slice_to_In, sort_desc_In in Hin.
    apply (scan_spec _ _ _ _ _ _ _ Hs) in Hin as [[]|(t & emb & d & Ht & Hv)].
    exists vs, emb, d.
    assert (Candidate.lens c = t) as ->.
    { apply visit_target_measured in Hv as (_ & _ & _ & _ & Hj).
      symmetry in Hj. now apply judge_lens in Hj. }
    tauto.
  - intros H. now injection H as <-.
Qed.

(** *** The batch driver *)

(** What holds of the record built from any source and its best candidate
    holds of every record of the batch. *)
Lemma process_Forall (P : Contrast.t -> Prop) (self : ContrastGenerator)
  (uncovered : list Lens.t) (acc : list Contrast.t) :
  (forall source_lens best rest,
      In source_lens uncovered ->
      find_contrast_candidates json_loads self source_lens 3 = Returns (best :: rest) ->
      P (contrast_of source_lens best)) ->
  Forall P acc ->
  Forall P (returned (process json_loads self uncovered acc)).
Proof.
  revert acc. induction uncovered as [|s uncovered IH]; intros acc Hstep Hacc; simpl.
  - exact Hacc.
  - destruct (find_contrast_candidates json_loads self s 3) as [[|best rest]|e] eqn:Hf;
      simpl.
    + apply IH; [|exact Hacc]. intros s' b r Hin. apply Hstep. now right.
    + apply IH.
      * intros s' b r Hin. apply Hstep. now right.
      * apply Forall_app. split; [exact Hacc|]. constructor; [|constructor].
        apply (Hstep s best rest); [now left | exact Hf].
    + constructor.
Qed.

(** The batch built so far is only ever appended to. *)
Lemma process_acc (self : ContrastGenerator) (uncovered : list Lens.t)
  (acc : list Contrast.t) :
  process json_loads self uncovered acc
  = (fresh <- process json_loads self uncovered [] ;; Returns (acc ++ fresh)%list).
Proof.
  revert acc. induction uncovered as [|s uncovered IH]; intros acc; simpl.
  - now rewrite app_nil_r.
  - destruct (find_contrast_candidates json_loads self s 3) as [[|best rest]|e]; simpl.
    + apply IH.
    + rewrite IH. rewrite (IH (cons _ nil)).
      destruct (process json_loads self uncovered []) as [fresh|e]; simpl; [|reflexivity].
      now rewrite <- app_assoc.
    + reflexivity.
Qed.

(** Two lenses, no existing contrast, each admitting the other: a run
    emits a record for each direction. *)
Lemma two_lens_run (client : string -> outcome (option column)) (a b : Lens.t)
  (va vb : list R) (d : float) (cab cba : Candidate.t) :
  Lens.id a <> Lens.id b ->
  get_lens_embedding json_loads (init client [a; b] []) (Lens.id a) = Returns (Some va) ->
  get_lens_embedding json_loads (init client [a; b] []) (Lens.id b) = Returns (Some vb) ->
  cosine_distance va vb = Returns d ->
  judge a (concept_set a) b d = Some cab ->
  judge b (concept_set b) a d = Some cba ->
  generate_contrasts json_loads (init client [a; b] []) None
  = Returns [contrast_of a cab; contrast_of b cba].
Proof.
  intros Hid Ha Hb Hd Hab Hba.
  set (self := init client [a; b] []) in *.
  assert (Hvab : visit_target json_loads self a va (concept_set a) b
                 = Returns (Measured vb d (Some cab))).
  { apply visit_target_measured. repeat split; auto. }
  assert (Hvba : visit_target json_loads self b vb (concept_set b) a
                 = Returns (Measured va d (Some cba))).
  { apply visit_target_measured. repeat split; auto.
    now rewrite cosine_distance_comm. }
  assert (Hfa : find_contrast_candidates json_loads self a 3 = Returns [cab]).
  { unfold find_contrast_candidates. rewrite Ha. simpl.
    rewrite visit_self. simpl. rewrite Hvab. reflexivity. }
  assert (Hfb : find_contrast_candidates json_loads self b 3 = Returns [cba]).
  { unfold find_contrast_candidates. rewrite Hb. simpl.
    rewrite Hvba. simpl. rewrite visit_self. reflexivity. }
  unfold generate_contrasts. simpl. rewrite Hfa. simpl. rewrite Hfb. reflexivity.
Qed.

(** The run of the end-to-end scenario, record by record. *)
Lemma end_to_end_run (client : string -> outcome (option column)) (a b : Lens.t)
  (va vb : list R) :
  Lens.id a <> Lens.id b ->
  Lens.related_concepts a = ["ai"; "control"] ->
  Lens.related_concepts b = ["ai"; "freedom"] ->
  get_lens_embedding json_loads (init client [a; b] []) (Lens.id a) = Returns (Some va) ->
  get_lens_embedding json_loads (init client [a; b] []) (Lens.id b) = Returns (Some vb) ->
  cosine_distance va vb = Returns (Finite 0.75) ->
  contains (lower (Lens.definition a)) "control" = true ->
  contains (lower (Lens.definition b)) "freedom" = true ->
  (forall pair, In pair dialectic_pairs -> pair <> ("control", "freedom") ->
                opposed (lower (Lens.definition a)) (lower (Lens.definition b)) pair
                = false) ->
  generate_contrasts json_loads (init client [a; b] []) None
  = Returns [ contrast_of a (Candidate.make b 0.75 0.2 (0.75 * 0.7 + 0.2 * 0.3) ["ai"]);
              contrast_of b (Candidate.make a 0.75 0.2 (0.75 * 0.7 + 0.2 * 0.3) ["ai"]) ].
Proof.
  intros Hid Hca Hcb Ha Hb Hd Hc Hf Hother.
  pose proof (only_control_freedom a b Hc Hf Hother) as Hs.
  assert (leb 0.65 0.75 && leb 0.75 0.92 = true) as Hband.
  { apply andb_true_iff. split; apply leb_true; lra. }
  apply (two_lens_run client a b va vb (Finite 0.75)); auto.
  - rewrite judge_Finite, Hband, Hs. unfold concept_set. rewrite Hca, Hcb. reflexivity.
  - rewrite judge_Finite, Hband, <- dialectic_score_sym, Hs.
    unfold concept_set. rewrite Hca, Hcb. reflexivity.
Qed.

(** *** The claims about the generator *)


(** C6.  No record generated by a run has equal source and target ids, and
    none covers an unordered pair that a [type == "contrast"] entry of the
    existing-relationships input already covers, in either direction. *)
Theorem no_self_or_existing_pair :
  forall (client : string -> outcome (option column)) (rows : list Lens.t)
         (connections : list Connection.t) (limit : option Z),
    Forall
      (fun c : Contrast.t =>
         Contrast.source_id c <> Contrast.target_id c
         /\ forall e : Connection.t,
              In e connections ->
              Connection.type e = Some "contrast" ->
              ~ ((Connection.source_id e = Contrast.source_id c
                  /\ Connection.target_id e = Contrast.target_id c)
                 \/ (Connection.source_id e = Contrast.target_id c
                     /\ Connection.target_id e = Contrast.source_id c)))
      (returned (generate_contrasts json_loads (init client rows connections) limit)).
Proof.
  intros client rows connections limit. unfold generate_contrasts.
  apply process_Forall; [|constructor].
  intros s best rest _ Hf.
  destruct (find_contrast_candidates_In _ _ _ _ best Hf (or_introl eq_refl))
    as (vs & emb & d & _ & Hv).
  apply visit_target_measured in Hv as (Hid & Hex & _ & _ & _).
  simpl. split; [congruence|].
  intros e He Hty.
  apply (has_existing_false _ _ _ Hex).
  simpl. unfold load_existing_contrasts. apply filter_In. split; [exact He|].
  now rewrite Hty.
Qed.



(** C1, as amended.  In the end-to-end scenario (two lenses A and B with
    related concepts ai, control and ai, freedom, embeddings at cosine
    distance 0.75, definitions containing "control" and "freedom" and no
    other opposing pair across them, no existing relationship) a run returns
    exactly two records, A to B and B to A, one for each uncovered source;
    each has dialectic_score 0.2, combined_score 0.585 in its metadata and
    weight 0.84. *)
Theorem end_to_end_scenario :
  forall (client : string -> outcome (option column)) (a b : Lens.t) (va vb : list R),
    Lens.id a <> Lens.id b ->
    Lens.related_concepts a = ["ai"; "control"] ->
    Lens.related_concepts b = ["ai"; "freedom"] ->
    get_lens_embedding json_loads (init client [a; b] []) (Lens.id a) = Returns (Some va) ->
    get_lens_embedding json_loads (init client [a; b] []) (Lens.id b) = Returns (Some vb) ->
    cosine_distance va vb = Returns (Finite 0.75) ->
    contains (lower (Lens.definition a)) "control" = true ->
    contains (lower (Lens.definition b)) "freedom" = true ->
    (forall pair, In pair dialectic_pairs -> pair <> ("control", "freedom") ->
                  opposed (lower (Lens.definition a)) (lower (Lens.definition b)) pair
                  = false) ->
    exists ab ba : Contrast.t,
      generate_contrasts json_loads (init client [a; b] []) None = Returns [ab; ba]
      /\ Contrast.source_id ab = Lens.id a /\ Contrast.target_id ab = Lens.id b
      /\ Contrast.source_id ba = Lens.id b /\ Contrast.target_id ba = Lens.id a
      /\ Forall (fun c : Contrast.t =>
                   Contrast.type c = "contrast"
                   /\ Metadata.dialectic_score (Contrast.metadata c) = 0.2
                   /\ Metadata.combined_score (Contrast.metadata c) = 0.585
                   /\ Contrast.weight c = 0.84) [ab; ba].
Proof.
  intros client a b va vb Hid Hca Hcb Ha Hb Hd Hc Hf Hother.
  eexists _, _. split.
  - apply (end_to_end_run client a b va vb); assumption.
  - simpl. repeat split; try reflexivity;
      repeat constructor; simpl; auto with scenario_numbers.
Qed.

(** C10.  The records accumulated during a run are never consulted: what
    the loop of [generate_contrasts] appends does not depend on the batch
    built so far, the duplicate check reading only the contrasts loaded at
    start.  So for two lenses that are both uncovered at start and each select
    the other, one run returns two records covering the same unordered pair,
    one in each direction. *)
Theorem run_ignores_its_own_batch :
  (forall (self : ContrastGenerator) (uncovered : list Lens.t)
          (new_contrasts : list Contrast.t),
      process json_loads self uncovered new_contrasts
      = (fresh <- process json_loads self uncovered [] ;;
         Returns (new_contrasts ++ fresh)%list))
  /\ exists (client : string -> outcome (option column)) (a b : Lens.t)
            (ab ba : Contrast.t),
       get_uncovered_lenses (init client [a; b] []) = [a; b]
       /\ generate_contrasts json_loads (init client [a; b] []) None = Returns [ab; ba]
       /\ Contrast.source_id ab <> Contrast.target_id ab
       /\ Contrast.source_id ba = Contrast.target_id ab
       /\ Contrast.target_id ba = Contrast.source_id ab.
Proof.
  split; [apply process_acc|].
  exists Scenario.client, Scenario.lens_A, Scenario.lens_B.
  eexists _, _. split; [reflexivity|]. split.
  - apply (end_to_end_run Scenario.client Scenario.lens_A Scenario.lens_B
             Scenario.embedding_A Scenario.embedding_B);
      try reflexivity.
    + discriminate.
    + exact scenario_distance.
    + exact scenario_other_pairs.
  - simpl. repeat split. discriminate.
Qed.

End ContrastGeneratorFacts.

(* ------------------------------------------------------------------ *)
(** ** The generator on the concrete inputs *)
(* ------------------------------------------------------------------ *)

Lemma scenario_run :
  generate_contrasts no_json Scenario.generator None
  = Returns [ contrast_of Scenario.lens_A
                (Candidate.make Scenario.lens_B 0.75 0.2 (0.75 * 0.7 + 0.2 * 0.3) ["ai"]);
              contrast_of Scenario.lens_B
                (Candidate.make Scenario.lens_A 0.75 0.2 (0.75 * 0.7 + 0.2 * 0.3) ["ai"]) ].
Proof.
  apply (end_to_end_run no_json Scenario.client Scenario.lens_A Scenario.lens_B
           Scenario.embedding_A Scenario.embedding_B);
    try reflexivity.
  - discriminate.
  - exact scenario_distance.
  - exact scenario_other_pairs.
Qed.

(** The batch of the scenario is not a single record: the claim C1 as the
    specification states it fails there. *)
Lemma end_to_end_two_records :
  ~ exists c : Contrast.t,
      generate_contrasts no_json Scenario.generator None = Returns [c].
Proof.
  intros [c H]. rewrite scenario_run in H. discriminate.
Qed.

(** C1, as amended, at the concrete scenario. *)
Lemma end_to_end_scenario_witness :
  exists ab ba : Contrast.t,
    generate_contrasts no_json Scenario.generator None = Returns [ab; ba]
    /\ Contrast.source_id ab = "A" /\ Contrast.target_id ab = "B"
    /\ Contrast.source_id ba = "B" /\ Contrast.target_id ba = "A"
    /\ Forall (fun c : Contrast.t =>
                 Contrast.type c = "contrast"
                 /\ Metadata.dialectic_score (Contrast.metadata c) = 0.2
                 /\ Metadata.combined_score (Contrast.metadata c) = 0.585
                 /\ Contrast.weight c = 0.84) [ab; ba].
Proof.
  apply (end_to_end_scenario no_json Scenario.client Scenario.lens_A Scenario.lens_B
           Scenario.embedding_A Scenario.embedding_B);
    try reflexivity.
  - discriminate.
  - exact scenario_distance.
  - exact scenario_other_pairs.
Defined.



(** The run on [Band.partly_linked]: P is the one uncovered lens, and Q is
    its one candidate. *)
Lemma partly_linked_run :
  generate_contrasts no_json Band.partly_linked None
  = Returns [ contrast_of Band.lens_P
                (Candidate.make Band.lens_Q 0.8
                   (calculate_dialectic_score Band.lens_P Band.lens_Q)
                   (0.8 * 0.7 + calculate_dialectic_score Band.lens_P Band.lens_Q * 0.3)
                   ["economics"]) ].
Proof.
  assert (leb 0.65 0.8 && leb 0.8 0.92 = true) as Hband.
  { apply andb_true_iff. split; apply leb_true; lra. }
  assert (Hq : visit_target no_json Band.partly_linked Band.lens_P Band.embedding_P
                 (concept_set Band.lens_P) Band.lens_Q
               = Returns (Measured Band.embedding_Q (Finite 0.8)
                   (Some (Candidate.make Band.lens_Q 0.8
                      (calculate_dialectic_score Band.lens_P Band.lens_Q)
                      (0.8 * 0.7 + calculate_dialectic_score Band.lens_P Band.lens_Q * 0.3)
                      ["economics"])))).
  { apply visit_target_measured. repeat split; try reflexivity.
    - discriminate.
    - exact band_distance.
    - now rewrite judge_Finite, Hband. }
  assert (Hz : visit_target no_json Band.partly_linked Band.lens_P Band.embedding_P
                 (concept_set Band.lens_P) Band.lens_Z
               = Returns (Measured Band.embedding_Z NaN None)).
  { apply visit_target_measured. repeat split; try reflexivity.
    - discriminate.
    - exact zero_distance. }
  unfold generate_contrasts.
  replace (get_uncovered_lenses Band.partly_linked) with [Band.lens_P] by reflexivity.
  cbn [process]. unfold find_contrast_candidates.
  replace (get_lens_embedding no_json Band.partly_linked (Lens.id Band.lens_P))
    with (Returns (Some Band.embedding_P)) by reflexivity.
  cbn [bind]. unfold Band.partly_linked at 2. cbn [lenses init scan].
  rewrite visit_self. cbn [bind]. rewrite Hq. cbn [bind app]. rewrite Hz.
  reflexivity.
Qed.

(** C6 at [Band.partly_linked]: the one record generated, P to Q, covers no
    pair that a contrast of the input covers, the connections between P and Q
    in the input being no contrasts. *)
Lemma no_self_or_existing_pair_witness :
  exists c : Contrast.t,
    generate_contrasts no_json Band.partly_linked None = Returns [c]
    /\ Contrast.source_id c = "P" /\ Contrast.target_id c = "Q"
    /\ forall e : Connection.t,
         In e [ Connection.make "Q" "Z" (Some "contrast");
                Connection.make "P" "Q" (Some "similar");
                Connection.make "Q" "P" None ] ->
         Connection.type e = Some "contrast" ->
         ~ ((Connection.source_id e = Contrast.source_id c
             /\ Connection.target_id e = Contrast.target_id c)
            \/ (Connection.source_id e = Contrast.target_id c
                /\ Connection.target_id e = Contrast.source_id c)).
Proof.
  pose proof (no_self_or_existing_pair no_json Band.client
                [Band.lens_P; Band.lens_Q; Band.lens_Z]
                [ Connection.make "Q" "Z" (Some "contrast");
                  Connection.make "P" "Q" (Some "similar");
                  Connection.make "Q" "P" None ] None) as H.
  fold Band.partly_linked in H. rewrite partly_linked_run in H.
  eexists. split; [exact partly_linked_run|].
  apply Forall_inv in H. destruct H as [_ H].
  repeat split; exact H.
Defined.



(* ------------------------------------------------------------------ *)
(** ** Bulk re-embedding *)
(* ------------------------------------------------------------------ *)

Section ReembedFacts.
Variable database : Type.
Variable generate_query_embedding : string -> outcome (list R).
Variable update_embedding : database -> string -> list R -> outcome database.

(** Each turn counts its lens once, as an update or as an error. *)
Lemma reembed_step_counts (st : progress database) (lens : Lens.t) :
  let st' := reembed_step generate_query_embedding update_embedding st lens in
  (updated st' + errors st' = S (updated st + errors st))%nat.
Proof.
  unfold reembed_step.
  destruct (embed_one generate_query_embedding update_embedding (store st) lens);
    simpl; lia.
Qed.

Lemma reembed_loop_counts (lenses : list Lens.t) (st : progress database) :
  let final := reembed_loop generate_query_embedding update_embedding lenses st in
  (updated final + errors final = updated st + errors st + List.length lenses)%nat.
Proof.
  revert st. induction lenses as [|lens lenses IH]; intros st; simpl.
  - lia.
  - unfold reembed_loop in *. simpl in *. rewrite IH.
    pose proof (reembed_step_counts st lens) as H. simpl in H. lia.
Qed.


End ReembedFacts.


(* ================================================================== *)
(** * Further properties of the code *)
(* ================================================================== *)

(* ------------------------------------------------------------------ *)
(** ** Coverage *)
(* ------------------------------------------------------------------ *)

Lemma mem_In (x : string) (s : list string) : mem x s = true <-> In x s.
Proof.
  unfold mem. rewrite existsb_exists. split.
  - intros (y & Hy & He). apply String.eqb_eq in He. now subst.
  - intros H. exists x. split; [exact H | apply String.eqb_refl].
Qed.

Lemma covered_ids_In (self : ContrastGenerator) (i : string) :
  In i (covered_ids self)
  <-> exists c, In c (existing_contrasts self)
                /\ (Connection.source_id c = i \/ Connection.target_id c = i).
Proof.
  unfold covered_ids. rewrite in_flat_map. split.
  - intros (c & Hc & [H|[H|[]]]); exists c; tauto.
  - intros (c & Hc & [H|H]); exists c; simpl; tauto.
Qed.

Lemma load_existing_contrasts_In (connections : list Connection.t) (c : Connection.t) :
  In c (load_existing_contrasts connections)
  <-> In c connections /\ Connection.type c = Some "contrast".
Proof.
  unfold load_existing_contrasts. rewrite filter_In.
  destruct (Connection.type c) as [ty|].
  - destruct (String.eqb_spec ty "contrast") as [->|Hne].
    + tauto.
    + split; intros [H1 H2]; [discriminate | congruence].
  - split; intros [H1 H2]; discriminate.
Qed.

(** X1.  A lens is uncovered exactly when it is a lens of the pool and no
    connection of the input whose type is "contrast" names its id, as source
    or as target; connections of another type, or with no type, do not cover
    a lens. *)
Theorem uncovered_iff_no_contrast_names_it :
  forall (client : string -> outcome (option column)) (rows : list Lens.t)
         (connections : list Connection.t) (lens : Lens.t),
    In lens (get_uncovered_lenses (init client rows connections))
    <-> In lens rows
        /\ forall c : Connection.t,
             In c connections -> Connection.type c = Some "contrast" ->
             Connection.source_id c <> Lens.id lens
             /\ Connection.target_id c <> Lens.id lens.
Proof.
  intros client rows connections lens. unfold get_uncovered_lenses.
  rewrite filter_In, negb_true_iff. simpl lenses.
  split; intros [Hin H]; (split; [exact Hin|]).
  - intros c Hc Hty.
    assert (~ In (Lens.id lens) (covered_ids (init client rows connections))) as Hn.
    { rewrite <- mem_In. congruence. }
    rewrite covered_ids_In in Hn. simpl existing_contrasts in Hn.
    split; intros He; apply Hn; exists c;
      (split; [apply load_existing_contrasts_In; tauto | tauto]).
  - destruct (mem (Lens.id lens) (covered_ids (init client rows connections))) eqn:Hm;
      [|reflexivity].
    apply mem_In, covered_ids_In in Hm as (c & Hc & He).
    simpl in Hc. apply load_existing_contrasts_In in Hc as [Hc Hty].
    destruct (H c Hc Hty). tauto.
Qed.

Lemma has_existing_true (self : ContrastGenerator) (a b : Lens.t) :
  has_existing self a b = true
  <-> exists c, In c (existing_contrasts self)
                /\ ((Connection.source_id c = Lens.id a
                     /\ Connection.target_id c = Lens.id b)
                    \/ (Connection.target_id c = Lens.id a
                        /\ Connection.source_id c = Lens.id b)).
Proof.
  unfold has_existing. rewrite existsb_exists.
  split; intros (c & Hc & H); exists c; (split; [exact Hc|]).
  - rewrite orb_true_iff, !andb_true_iff, !String.eqb_eq in H. exact H.
  - rewrite orb_true_iff, !andb_true_iff, !String.eqb_eq. exact H.
Qed.

(** X2.  The check for an existing contrast does not depend on which of the
    two lenses is taken as the source. *)
Theorem has_existing_symmetric :
  forall (self : ContrastGenerator) (a b : Lens.t),
    has_existing self a b = has_existing self b a.
Proof.
  intros self a b.
  destruct (has_existing self a b) eqn:Hab, (has_existing self b a) eqn:Hba;
    try reflexivity.
  - apply has_existing_true in Hab as (c & Hc & H).
    assert (has_existing self b a = true) by (apply has_existing_true; exists c; tauto).
    congruence.
  - apply has_existing_true in Hba as (c & Hc & H).
    assert (has_existing self a b = true) by (apply has_existing_true; exists c; tauto).
    congruence.
Qed.

Lemma uncovered_not_linked (self : ContrastGenerator) (source_lens target_lens : Lens.t) :
  In source_lens (get_uncovered_lenses self) ->
  has_existing self source_lens target_lens = false.
Proof.
  unfold get_uncovered_lenses. rewrite filter_In, negb_true_iff. intros [_ Hm].
  destruct (has_existing self source_lens target_lens) eqn:He; [|reflexivity].
  apply has_existing_true in He as (c & Hc & H).
  assert (mem (Lens.id source_lens) (covered_ids self) = true) as Ht.
  { apply mem_In, covered_ids_In. exists c. tauto. }
  congruence.
Qed.

(** X3.  For a source that is uncovered, the check for an existing contrast
    finds nothing, whatever the target: during a run of [generate_contrasts],
    whose sources are the uncovered lenses, no target is skipped for being
    already linked to the source. *)
Theorem existing_check_idle_for_uncovered :
  forall (self : ContrastGenerator) (source_lens target_lens : Lens.t),
    In source_lens (get_uncovered_lenses self) ->
    has_existing self source_lens target_lens = false.
Proof. exact uncovered_not_linked. Qed.

(** X3 at [Band.partly_linked], whose one uncovered lens is P. *)
Lemma existing_check_idle_for_uncovered_witness :
  has_existing Band.partly_linked Band.lens_P Band.lens_Q = false.
Proof.
  apply existing_check_idle_for_uncovered. simpl. now left.
Defined.

(* ------------------------------------------------------------------ *)
(** ** Ranking and truncation of the candidates *)
(* ------------------------------------------------------------------ *)

Lemma insert_desc_perm {A : Type} (key : A -> R) (x : A) (l : list A) :
  Permutation (insert_desc key x l) (x :: l).
Proof.
  induction l as [|y l IH]; simpl; [reflexivity|].
  destruct (Rlt_dec (key x) (key y)); [|reflexivity].
  rewrite IH. apply perm_swap.
Qed.

Lemma sort_desc_perm {A : Type} (key : A -> R) (l : list A) :
  Permutation (sort_desc key l) l.
Proof.
  induction l as [|x l IH]; simpl; [reflexivity|].
  rewrite insert_desc_perm. now constructor.
Qed.

Lemma insert_desc_sorted {A : Type} (key : A -> R) (x : A) (l : list A) :
  StronglySorted (fun a b => key b <= key a) l ->
  StronglySorted (fun a b => key b <= key a) (insert_desc key x l).
Proof.
  induction 1 as [|y l Hs IH Hy]; simpl.
  - repeat constructor.
  - destruct (Rlt_dec (key x) (key y)) as [Hlt|Hge].
    + constructor; [exact IH|].
      apply Forall_forall. intros z Hz.
      apply insert_desc_In in Hz as [->|Hz]; [lra|].
      rewrite Forall_forall in Hy. now apply Hy.
    + constructor; [now constructor|].
      constructor; [lra|].
      apply Forall_forall. intros z Hz. rewrite Forall_forall in Hy.
      specialize (Hy z Hz). lra.
Qed.

Lemma sort_desc_sorted {A : Type} (key : A -> R) (l : list A) :
  StronglySorted (fun a b => key b <= key a) (sort_desc key l).
Proof.
  induction l as [|x l IH]; simpl; [constructor | now apply insert_desc_sorted].
Qed.

(** The first element after sorting is the first of the greatest ones: the
    sort is stable. *)
Lemma sort_desc_head {A : Type} (key : A -> R) (l : list A) (best : A) (rest : list A) :
  sort_desc key l = best :: rest ->
  exists before after,
    l = (before ++ best :: after)%list
    /\ Forall (fun c => key c < key best) before
    /\ Forall (fun c => key c <= key best) after.
Proof.
  revert best rest. induction l as [|x l IH]; intros best rest; simpl; [discriminate|].
  destruct (sort_desc key l) as [|y sorted] eqn:Hs; simpl.
  - intros H. injection H as <- <-.
    assert (l = []) as ->.
    { apply Permutation_nil. rewrite <- Hs. apply sort_desc_perm. }
    exists [], []. repeat split; constructor.
  - destruct (IH y sorted eq_refl) as (before & after & -> & Hb & Ha).
    destruct (Rlt_dec (key x) (key y)) as [Hlt|Hge]; intros H; injection H as <- <-.
    + exists (x :: before), after. repeat split; [now constructor | exact Ha].
    + exists [], (before ++ y :: after)%list. repeat split; [constructor|].
      apply Forall_app. split.
      * eapply Forall_impl; [|exact Hb]. simpl. intros; lra.
      * constructor; [lra|]. eapply Forall_impl; [|exact Ha]. simpl. intros; lra.
Qed.

Lemma sorted_app {A : Type} (Rel : A -> A -> Prop) (l1 l2 : list A) :
  StronglySorted Rel (l1 ++ l2) ->
  StronglySorted Rel l1 /\ forall a b, In a l1 -> In b l2 -> Rel a b.
Proof.
  induction l1 as [|x l1 IH]; simpl; intros H.
  - split; [constructor | intros a b []].
  - apply StronglySorted_inv in H as [Hs Hx]. destruct (IH Hs) as [H1 H2].
    apply Forall_app in Hx as [Hx1 Hx2]. split.
    + now constructor.
    + intros a b [<-|Ha] Hb; [|now apply H2].
      rewrite Forall_forall in Hx2. now apply Hx2.
Qed.

(** A slice up to a position is a prefix, of the length Python gives it. *)
Lemma slice_to_firstn {A : Type} (l : list A) (n : Z) :
  exists k : nat,
    slice_to l n = firstn k l
    /\ ((0 <= n)%Z -> k = Z.to_nat n)
    /\ ((n < 0)%Z -> k = (List.length l - Z.to_nat (- n))%nat).
Proof.
  unfold slice_to. destruct (Z.leb_spec 0 n).
  - exists (Z.to_nat n). repeat split; lia.
  - exists (List.length l - Z.to_nat (- n))%nat. repeat split; lia.
Qed.

Section Ranking.
Variable json_loads : string -> outcome (list R).

(** X4.  When the source has an embedding and the loop over the pool
    returns, [find_contrast_candidates] returns the admitted candidates
    ranked by combined score, highest first, and cut to the limit: the
    returned list is in non-increasing order of combined score, together with
    the candidates it drops it is a rearrangement of the admitted ones, no
    dropped candidate scores higher than a returned one, and for a
    non-negative limit the returned list has [limit] entries, or all of them
    if there are fewer. *)
Theorem candidates_ranked_and_cut :
  forall (self : ContrastGenerator) (source_lens : Lens.t) (limit : Z)
         (vs : list R) (admitted : list Candidate.t),
    get_lens_embedding json_loads self (Lens.id source_lens) = Returns (Some vs) ->
    scan json_loads self source_lens vs (concept_set source_lens) (lenses self) []
    = Returns admitted ->
    exists kept dropped : list Candidate.t,
      find_contrast_candidates json_loads self source_lens limit = Returns kept
      /\ Permutation (kept ++ dropped) admitted
      /\ StronglySorted
           (fun a b => Candidate.combined_score b <= Candidate.combined_score a) kept
      /\ (forall c d, In c kept -> In d dropped ->
                      Candidate.combined_score d <= Candidate.combined_score c)
      /\ ((0 <= limit)%Z ->
          List.length kept = Nat.min (Z.to_nat limit) (List.length admitted)).
Proof.
  intros self source_lens limit vs admitted Hemb Hscan.
  set (ranked := sort_desc Candidate.combined_score admitted).
  destruct (slice_to_firstn ranked limit) as (k & Hk & Hpos & _).
  exists (firstn k ranked), (skipn k ranked).
  assert (Hsorted : StronglySorted
            (fun a b => Candidate.combined_score b <= Candidate.combined_score a)
            (firstn k ranked ++ skipn k ranked)).
  { rewrite firstn_skipn. apply sort_desc_sorted. }
  apply sorted_app in Hsorted as [Hs1 Hs2].
  repeat split.
  - unfold find_contrast_candidates. rewrite Hemb. simpl. rewrite Hscan. simpl.
    fold ranked. now rewrite Hk.
  - rewrite firstn_skipn. apply sort_desc_perm.
  - exact Hs1.
  - exact Hs2.
  - intros Hl. rewrite length_firstn, (Hpos Hl). f_equal.
    apply Permutation_length, sort_desc_perm.
Qed.

(** X5.  When the admitted candidates are not empty and the limit is at
    least 1, the first candidate returned, the one [generate_contrasts]
    takes as best, has the greatest combined score of all admitted
    candidates, and among candidates with that score it is the one whose lens
    comes first in the pool: every candidate admitted before it scores
    strictly less, every candidate admitted after it scores at most as
    much. *)
Theorem best_candidate_is_first_maximum :
  forall (self : ContrastGenerator) (source_lens : Lens.t) (limit : Z)
         (vs : list R) (admitted : list Candidate.t),
    get_lens_embedding json_loads self (Lens.id source_lens) = Returns (Some vs) ->
    scan json_loads self source_lens vs (concept_set source_lens) (lenses self) []
    = Returns admitted ->
    admitted <> [] ->
    (1 <= limit)%Z ->
    exists (best : Candidate.t) (rest before after : list Candidate.t),
      find_contrast_candidates json_loads self source_lens limit = Returns (best :: rest)
      /\ admitted = (before ++ best :: after)%list
      /\ Forall (fun c => Candidate.combined_score c < Candidate.combined_score best)
                before
      /\ Forall (fun c => Candidate.combined_score c <= Candidate.combined_score best)
                after.
Proof.
  intros self source_lens limit vs admitted Hemb Hscan Hne Hl.
  destruct (sort_desc Candidate.combined_score admitted) as [|best sorted] eqn:Hs.
  { exfalso. apply Hne, Permutation_nil. rewrite <- Hs. apply sort_desc_perm. }
  destruct (sort_desc_head _ _ _ _ Hs) as (before & after & Hsplit & Hb & Ha).
  exists best, (firstn (Z.to_nat limit - 1) sorted), before, after.
  repeat split; try assumption.
  unfold find_contrast_candidates. rewrite Hemb. simpl. rewrite Hscan. simpl.
  rewrite Hs. unfold slice_to. destruct (Z.leb_spec 0 limit); [|lia].
  destruct (Z.to_nat limit) as [|k] eqn:Hk; [lia|]. simpl.
  now rewrite Nat.sub_0_r.
Qed.

End Ranking.

(* ------------------------------------------------------------------ *)
(** ** What a candidate and a record hold *)
(* ------------------------------------------------------------------ *)

Lemma dialectic_score_range (source_lens target_lens : Lens.t) :
  0 <= calculate_dialectic_score source_lens target_lens <= 1.
Proof.
  rewrite dialectic_score_count.
  pose proof (pos_INR (opposed_count source_lens target_lens)).
  unfold Rmin. destruct (Rle_dec _ 1); lra.
Qed.

(** The dialectic score has one decimal: rounding to three changes nothing. *)
Lemma dialectic_score_round (source_lens target_lens : Lens.t) :
  round (calculate_dialectic_score source_lens target_lens) 3
  = calculate_dialectic_score source_lens target_lens.
Proof.
  rewrite dialectic_score_count. unfold Rmin.
  destruct (Rle_dec (0.2 * INR (opposed_count source_lens target_lens)) 1).
  - apply (round_exact (200 * Z.of_nat (opposed_count source_lens target_lens))).
    rewrite mult_IZR, <- INR_IZR_INZ. lra.
  - apply (round_exact 1000). lra.
Qed.

Lemma judge_Some (source_lens : Lens.t) (source_concepts : list string)
  (target_lens : Lens.t) (d : float) (c : Candidate.t) :
  judge source_lens source_concepts target_lens d = Some c ->
  exists x : R,
    d = Finite x
    /\ 0.65 <= x <= 0.92
    /\ (1 <= List.length (diff (inter source_concepts (concept_set target_lens))
                            generic_concepts)
        \/ 2 <= List.length (inter source_concepts (concept_set target_lens)))%nat
    /\ c = Candidate.make target_lens x
             (calculate_dialectic_score source_lens target_lens)
             (x * 0.7 + calculate_dialectic_score source_lens target_lens * 0.3)
             (inter source_concepts (concept_set target_lens)).
Proof.
  destruct d as [x| |]; try discriminate.
  intros H. exists x. split; [reflexivity|].
  assert (exists c', judge source_lens source_concepts target_lens (Finite x) = Some c')
    as Hex by eauto.
  apply judge_spec in Hex as [Hband Hshared].
  repeat split; try tauto.
  rewrite judge_Finite in H.
  destruct (_ && _); [|discriminate]. now injection H as <-.
Qed.

(** A difference is no longer than the set it is taken from. *)
Lemma diff_length (a b : list string) : (List.length (diff a b) <= List.length a)%nat.
Proof. apply filter_length_le. Qed.

Section Contents.
Variable json_loads : string -> outcome (list R).

Lemma find_contrast_candidates_inv (self : ContrastGenerator) (source_lens : Lens.t)
  (limit : Z) (cs : list Candidate.t) (c : Candidate.t) :
  find_contrast_candidates json_loads self source_lens limit = Returns cs ->
  In c cs ->
  exists vs emb d,
    get_lens_embedding json_loads self (Lens.id source_lens) = Returns (Some vs)
    /\ In (Candidate.lens c) (lenses self)
    /\ visit_target json_loads self source_lens vs (concept_set source_lens)
         (Candidate.lens c) = Returns (Measured emb d (Some c)).
Proof.
  unfold find_contrast_candidates.
  destruct (get_lens_embedding json_loads self (Lens.id source_lens)) as [[vs|]|e];
    simpl; try discriminate.
  - destruct (scan json_loads self source_lens vs (concept_set source_lens)
                (lenses self) []) as [scanned|e] eqn:Hs; simpl; [|discriminate].
    intros H Hin. injection H as <-.
    apply slice_to_In, sort_desc_In in Hin.
    apply (scan_spec _ _ _ _ _ _ _ _ Hs) in Hin as [[]|(t & emb & d & Ht & Hv)].
    exists vs, emb, d.
    assert (Candidate.lens c = t) as ->.
    { apply visit_target_measured in Hv as (_ & _ & _ & _ & Hj).
      symmetry in Hj. now apply judge_lens in Hj. }
    tauto.
  - intros H. now injection H as <-.
Qed.

Lemma admitted_candidate (self : ContrastGenerator) (source_lens target_lens : Lens.t)
  (vs emb : list R) (d : float) (c : Candidate.t) :
  visit_target json_loads self source_lens vs (concept_set source_lens) target_lens
  = Returns (Measured emb d (Some c)) ->
  Candidate.lens c = target_lens
  /\ Lens.id target_lens <> Lens.id source_lens
  /\ has_existing self source_lens target_lens = false
  /\ get_lens_embedding json_loads self (Lens.id target_lens) = Returns (Some emb)
  /\ cosine_distance vs emb = Returns (Finite (Candidate.distance c))
  /\ 0.65 <= Candidate.distance c <= 0.92
  /\ Candidate.dialectic_score c = calculate_dialectic_score source_lens target_lens
  /\ Candidate.combined_score c
     = Candidate.distance c * 0.7 + Candidate.dialectic_score c * 0.3
  /\ Candidate.shared_concepts c
     = inter (concept_set source_lens) (concept_set target_lens)
  /\ Candidate.shared_concepts c <> [].
Proof.
  intros H. apply visit_target_measured in H as (Hid & Hex & Hemb & Hd & Hj).
  symmetry in Hj. apply judge_Some in Hj as (x & -> & Hband & Hshared & ->).
  simpl. repeat split; try assumption; try lra.
  intros Hnil. rewrite Hnil in Hshared. simpl in Hshared. lia.
Qed.


(** X7.  Every record of a run is built from a lens of the pool that no
    contrast of the input names, as its source, and another lens of the pool,
    as its target.  Its type is "contrast"; in its metadata the distance lies
    in [0.65, 0.92], the dialectic score is the unrounded score of the two
    definitions, the combined score lies in [0.455, 0.944] and at least one
    shared concept is listed.  Its weight is the linear map of the unrounded
    combined score rounded to two decimals: the clamp to [0.80, 0.95] never
    changes the value of a generated record. *)
Theorem records_well_formed :
  forall (client : string -> outcome (option column)) (rows : list Lens.t)
         (connections : list Connection.t) (limit : option Z),
    Forall
      (fun r : Contrast.t =>
         exists (source_lens target_lens : Lens.t) (combined : R),
           In source_lens (get_uncovered_lenses (init client rows connections))
           /\ In target_lens rows
           /\ Contrast.source_id r = Lens.id source_lens
           /\ Contrast.target_id r = Lens.id target_lens
           /\ Contrast.type r = "contrast"
           /\ Metadata.generated_by (Contrast.metadata r) = "generate_contrasts_json.py"
           /\ 0.65 <= Metadata.distance (Contrast.metadata r) <= 0.92
           /\ Metadata.dialectic_score (Contrast.metadata r)
              = calculate_dialectic_score source_lens target_lens
           /\ Metadata.combined_score (Contrast.metadata r) = round combined 3
           /\ 0.455 <= Metadata.combined_score (Contrast.metadata r) <= 0.944
           /\ Metadata.shared_concepts (Contrast.metadata r) <> []
           /\ Contrast.weight r = round (0.80 + (combined - 0.45) * 0.30) 2)
      (returned (generate_contrasts json_loads (init client rows connections) limit)).
Proof.
  intros client rows connections limit. unfold generate_contrasts.
  apply process_Forall; [|constructor].
  intros s best rest Hs Hf.
  assert (In s (get_uncovered_lenses (init client rows connections))) as Hunc.
  { destruct limit as [n|]; [|exact Hs].
    destruct (n =? 0)%Z; [exact Hs | now apply slice_to_In in Hs]. }
  destruct (find_contrast_candidates_inv _ _ _ _ best Hf (or_introl eq_refl))
    as (vs & emb & d & Hvs & Hpool & Hv).
  apply admitted_candidate in Hv
    as (_ & Hid & Hex & Hemb & Hd & Hband & Hdial & Hcomb & Hshared & Hne).
  pose proof (dialectic_score_range s (Candidate.lens best)) as Hr.
  assert (0.455 <= Candidate.combined_score best <= 0.944) as Hc
    by (rewrite Hcomb, Hdial; lra).
  exists s, (Candidate.lens best), (Candidate.combined_score best).
  simpl. repeat split; try assumption; try reflexivity.
  - pose proof (round_ge 650 (Candidate.distance best) 3). lra.
  - pose proof (round_le 920 (Candidate.distance best) 3). lra.
  - rewrite Hdial. apply dialectic_score_round.
  - pose proof (round_ge 455 (Candidate.combined_score best) 3). lra.
  - pose proof (round_le 944 (Candidate.combined_score best) 3). lra.
  - unfold contrast_weight.
    set (w := 0.80 + (Candidate.combined_score best - 0.45) * 0.30).
    pose proof (round_ge 80 w 2). pose proof (round_le 95 w 2).
    assert (0.80 <= round w 2 <= 0.95) as Hw by (unfold w in *; lra).
    unfold Py.max, Py.min.
    destruct (Rlt_dec (round w 2) 0.95); destruct (Rlt_dec 0.80 _); lra.
Qed.

End Contents.

(* ------------------------------------------------------------------ *)
(** ** The shape of a run *)
(* ------------------------------------------------------------------ *)

Section RunShape.
Variable json_loads : string -> outcome (list R).

(** The record a source contributes to the batch, if any. *)
Lemma process_returns (self : ContrastGenerator) (uncovered : list Lens.t)
  (acc : list Contrast.t) :
  (forall s, In s uncovered ->
             exists cs, find_contrast_candidates json_loads self s 3 = Returns cs) ->
  process json_loads self uncovered acc
  = Returns (acc ++ flat_map
                      (fun s =>
                         match returned (find_contrast_candidates json_loads self s 3) with
                         | best :: _ => [contrast_of s best]
                         | [] => []
                         end) uncovered)%list.
Proof.
  revert acc. induction uncovered as [|s uncovered IH]; intros acc H; simpl.
  - now rewrite app_nil_r.
  - destruct (H s (or_introl eq_refl)) as [cs Hcs]. rewrite Hcs. simpl.
    destruct cs as [|best rest]; rewrite IH by (intros s' Hs'; apply H; now right).
    + reflexivity.
    + now rewrite <- app_assoc.
Qed.

Lemma process_raises (self : ContrastGenerator) (uncovered : list Lens.t)
  (acc : list Contrast.t) (s : Lens.t) (e : exn) :
  In s uncovered ->
  find_contrast_candidates json_loads self s 3 = Raises e ->
  exists e', process json_loads self uncovered acc = Raises e'.
Proof.
  revert acc. induction uncovered as [|s' uncovered IH]; intros acc Hin Hf; simpl.
  - destruct Hin.
  - destruct (find_contrast_candidates json_loads self s' 3) as [[|best rest]|e'] eqn:Hs';
      simpl.
    + destruct Hin as [->|Hin]; [congruence | now apply IH].
    + destruct Hin as [->|Hin]; [congruence | now apply IH].
    + eauto.
Qed.

Lemma flat_map_length_le {A B : Type} (f : A -> list B) (l : list A) :
  (forall a, List.length (f a) <= 1)%nat ->
  (List.length (flat_map f l) <= List.length l)%nat.
Proof.
  intros H. induction l as [|a l IH]; simpl; [lia|].
  rewrite length_app. specialize (H a). lia.
Qed.

(** The batch is never longer than the list of sources. *)
Lemma process_length (self : ContrastGenerator) (uncovered : list Lens.t) :
  (List.length (returned (process json_loads self uncovered []))
   <= List.length uncovered)%nat.
Proof.
  destruct (process json_loads self uncovered []) as [batch|e] eqn:Hp; simpl; [|lia].
  assert (forall s, In s uncovered ->
                    exists cs, find_contrast_candidates json_loads self s 3 = Returns cs)
    as Hall.
  { intros s Hs.
    destruct (find_contrast_candidates json_loads self s 3) as [cs|e] eqn:Hf; [eauto|].
    destruct (process_raises self uncovered [] s e Hs Hf) as [e' He']. congruence. }
  rewrite (process_returns self uncovered [] Hall) in Hp. injection Hp as <-.
  apply flat_map_length_le. intros s.
  destruct (returned (find_contrast_candidates json_loads self s 3)); simpl; lia.
Qed.

(** X8.  A run without limit returns exactly when the search for candidates
    returns for every uncovered lens.  The batch then holds, in the order of
    the pool, one record for each uncovered lens that has a candidate, built
    from its first candidate, and nothing for an uncovered lens that has none;
    if the search raises for some uncovered lens, the run raises. *)
Theorem run_is_one_record_per_source :
  forall self : ContrastGenerator,
    ((forall s, In s (get_uncovered_lenses self) ->
                exists cs, find_contrast_candidates json_loads self s 3 = Returns cs) ->
     generate_contrasts json_loads self None
     = Returns (flat_map
                  (fun s =>
                     match returned (find_contrast_candidates json_loads self s 3) with
                     | best :: _ => [contrast_of s best]
                     | [] => []
                     end) (get_uncovered_lenses self)))
    /\ (forall s e, In s (get_uncovered_lenses self) ->
                    find_contrast_candidates json_loads self s 3 = Raises e ->
                    exists e', generate_contrasts json_loads self None = Raises e').
Proof.
  intros self. unfold generate_contrasts. split.
  - intros H. now rewrite (process_returns self _ [] H).
  - intros s e. apply process_raises.
Qed.

(** X9.  A limit of 0 is no limit: the run is the run without limit.  With a
    limit [n > 0] the batch has at most [n] records, and with a limit
    [n < 0] at most as many as there are uncovered lenses less [-n]. *)
Theorem limit_bounds_the_batch :
  forall self : ContrastGenerator,
    generate_contrasts json_loads self (Some 0%Z) = generate_contrasts json_loads self None
    /\ (forall n : Z, (0 < n)%Z ->
          (List.length (returned (generate_contrasts json_loads self (Some n)))
           <= Z.to_nat n)%nat)
    /\ (forall n : Z, (n < 0)%Z ->
          (List.length (returned (generate_contrasts json_loads self (Some n)))
           <= List.length (get_uncovered_lenses self) - Z.to_nat (- n))%nat)
    /\ (List.length (returned (generate_contrasts json_loads self None))
        <= List.length (get_uncovered_lenses self))%nat.
Proof.
  intros self. split; [reflexivity|]. split; [|split].
  - intros n Hn. unfold generate_contrasts.
    destruct (Z.eqb_spec n 0); [lia|].
    etransitivity; [apply process_length|].
    unfold slice_to. destruct (Z.leb_spec 0 n); [|lia].
    rewrite length_firstn. lia.
  - intros n Hn. unfold generate_contrasts.
    destruct (Z.eqb_spec n 0); [lia|].
    etransitivity; [apply process_length|].
    unfold slice_to. destruct (Z.leb_spec 0 n); [lia|].
    rewrite length_firstn. lia.
  - apply process_length.
Qed.

End RunShape.

(* ------------------------------------------------------------------ *)
(** ** Unusable embeddings: skipped when missing, fatal when misshapen *)
(* ------------------------------------------------------------------ *)

Section UnusableEmbeddings.
Variable json_loads : string -> outcome (list R).

Lemma scan_raises (self : ContrastGenerator) (source_lens : Lens.t)
  (vs : list R) (concepts : list string) (targets : list Lens.t)
  (acc : list Candidate.t) (t : Lens.t) (e : exn) :
  In t targets ->
  visit_target json_loads self source_lens vs concepts t = Raises e ->
  exists e', scan json_loads self source_lens vs concepts targets acc = Raises e'.
Proof.
  revert acc. induction targets as [|t' targets IH]; intros acc Hin Hv; simpl.
  - destruct Hin.
  - destruct (visit_target json_loads self source_lens vs concepts t') as [v|e'] eqn:Hv';
      simpl; [|eauto].
    destruct Hin as [->|Hin]; [congruence|].
    destruct v as [| | |emb d [c|]]; now apply IH.
Qed.

(** X10.  Embeddings of different lengths abort the run: if an uncovered
    lens and another lens of the pool both have an embedding and the two
    differ in length, [generate_contrasts] raises, whatever the other lenses
    are; the error of [np.dot] is not caught on the way. *)
Theorem dimension_mismatch_aborts_run :
  forall (self : ContrastGenerator) (source_lens target_lens : Lens.t)
         (vs vt : list R),
    In source_lens (get_uncovered_lenses self) ->
    In target_lens (lenses self) ->
    Lens.id target_lens <> Lens.id source_lens ->
    get_lens_embedding json_loads self (Lens.id source_lens) = Returns (Some vs) ->
    get_lens_embedding json_loads self (Lens.id target_lens) = Returns (Some vt) ->
    List.length vs <> List.length vt ->
    exists e : exn, generate_contrasts json_loads self None = Raises e.
Proof.
  intros self source_lens target_lens vs vt Hunc Hpool Hid Hs Ht Hlen.
  assert (visit_target json_loads self source_lens vs (concept_set source_lens)
            target_lens = Raises "ValueError") as Hv.
  { unfold visit_target.
    destruct (String.eqb_spec (Lens.id target_lens) (Lens.id source_lens)); [contradiction|].
    rewrite (uncovered_not_linked _ _ _ Hunc), Ht. simpl.
    unfold cosine_distance, dot.
    destruct (Nat.eqb_spec (List.length vs) (List.length vt)); [contradiction|].
    reflexivity. }
  destruct (scan_raises self source_lens vs (concept_set source_lens) (lenses self) []
              target_lens _ Hpool Hv) as [e He].
  apply (process_raises json_loads self _ [] source_lens e Hunc).
  unfold find_contrast_candidates. rewrite Hs. simpl. now rewrite He.
Qed.

(** The outcome of a turn does not depend on the pool. *)
Lemma visit_target_pool (client : string -> outcome (option column))
  (rows rows' : list Lens.t) (connections : list Connection.t)
  (source_lens : Lens.t) (vs : list R) (concepts : list string) (t : Lens.t) :
  visit_target json_loads (init client rows connections) source_lens vs concepts t
  = visit_target json_loads (init client rows' connections) source_lens vs concepts t.
Proof. reflexivity. Qed.

Lemma scan_pool (client : string -> outcome (option column))
  (rows rows' : list Lens.t) (connections : list Connection.t)
  (source_lens : Lens.t) (vs : list R) (concepts : list string)
  (targets : list Lens.t) (acc : list Candidate.t) :
  scan json_loads (init client rows connections) source_lens vs concepts targets acc
  = scan json_loads (init client rows' connections) source_lens vs concepts targets acc.
Proof.
  revert acc. induction targets as [|t targets IH]; intros acc; simpl; [reflexivity|].
  rewrite (visit_target_pool client rows rows').
  destruct (visit_target json_loads (init client rows' connections) source_lens vs
              concepts t) as [[| | |emb d [c|]]|e]; simpl; auto.
Qed.

Lemma scan_skips (self : ContrastGenerator) (source_lens : Lens.t)
  (vs : list R) (concepts : list string) (before after : list Lens.t)
  (t : Lens.t) (acc : list Candidate.t) :
  get_lens_embedding json_loads self (Lens.id t) = Returns None ->
  scan json_loads self source_lens vs concepts (before ++ t :: after) acc
  = scan json_loads self source_lens vs concepts (before ++ after) acc.
Proof.
  intros Hnone. revert acc. induction before as [|b before IH]; intros acc; simpl.
  - assert (exists v, visit_target json_loads self source_lens vs concepts t = Returns v
                      /\ forall emb d c, v <> Measured emb d (Some c)) as (v & -> & Hv).
    { unfold visit_target.
      destruct (String.eqb (Lens.id t) (Lens.id source_lens)).
      - exists SkipSelf. split; [reflexivity | discriminate].
      - destruct (has_existing self source_lens t).
        + exists SkipExisting. split; [reflexivity | discriminate].
        + rewrite Hnone. exists SkipNoEmbedding. split; [reflexivity | discriminate]. }
    simpl. destruct v as [| | |emb d [c|]]; try reflexivity.
    now destruct (Hv emb d c).
  - destruct (visit_target json_loads self source_lens vs concepts b)
      as [[| | |emb d [c|]]|e]; simpl; auto.
Qed.

(** X11.  A lens whose embedding is missing or cannot be read is passed over
    without a trace: the candidates found for any source are the same with
    the lens in the pool and with the lens taken out of it. *)
Theorem lens_without_embedding_changes_nothing :
  forall (client : string -> outcome (option column)) (connections : list Connection.t)
         (before after : list Lens.t) (t source_lens : Lens.t) (limit : Z),
    get_lens_embedding json_loads (init client (before ++ t :: after) connections)
      (Lens.id t) = Returns None ->
    find_contrast_candidates json_loads (init client (before ++ t :: after) connections)
      source_lens limit
    = find_contrast_candidates json_loads (init client (before ++ after) connections)
        source_lens limit.
Proof.
  intros client connections before after t source_lens limit Hnone.
  unfold find_contrast_candidates.
  change (get_lens_embedding json_loads (init client (before ++ after) connections)
            (Lens.id source_lens))
    with (get_lens_embedding json_loads (init client (before ++ t :: after) connections)
            (Lens.id source_lens)).
  destruct (get_lens_embedding json_loads (init client (before ++ t :: after) connections)
              (Lens.id source_lens)) as [[vs|]|e]; simpl; try reflexivity.
  rewrite (scan_skips _ _ _ _ _ _ _ _ Hnone).
  now rewrite (scan_pool client (before ++ t :: after) (before ++ after)).
Qed.

End UnusableEmbeddings.

(** X10 at two lenses with embeddings of lengths 2 and 3. *)
Lemma dimension_mismatch_aborts_run_witness :
  exists e : exn, generate_contrasts no_json Mismatch.generator None = Raises e.
Proof.
  apply (dimension_mismatch_aborts_run no_json Mismatch.generator
           Mismatch.lens_M Mismatch.lens_N [1; 0] [1; 0; 0]).
  - simpl. now left.
  - simpl. tauto.
  - discriminate.
  - reflexivity.
  - reflexivity.
  - discriminate.
Defined.

(** X11 at the pool of P, W and Q, the store having no row for W. *)
Lemma lens_without_embedding_changes_nothing_witness :
  find_contrast_candidates no_json (init Band.client [Band.lens_P; lens_W; Band.lens_Q] [])
    Band.lens_P 3
  = find_contrast_candidates no_json (init Band.client [Band.lens_P; Band.lens_Q] [])
      Band.lens_P 3.
Proof.
  apply (lens_without_embedding_changes_nothing no_json Band.client []
           [Band.lens_P] [Band.lens_Q] lens_W Band.lens_P 3).
  reflexivity.
Defined.

(* ------------------------------------------------------------------ *)
(** ** The geometry of the cosine distance *)
(* ------------------------------------------------------------------ *)

Lemma square_bound (p n : R) : 0 <= n -> p * p <= n * n -> - n <= p <= n.
Proof.
  intros Hn Hsq. split.
  - destruct (Rle_dec (- n) p) as [|Hlt]; [assumption|].
    assert (n * n < (- p) * (- p))
      by (apply Rmult_le_0_lt_compat; lra).
    lra.
  - destruct (Rle_dec p n) as [|Hlt]; [assumption|].
    assert (n * n < p * p) by (apply Rmult_le_0_lt_compat; lra).
    lra.
Qed.

Lemma cross_term (x y A B C : R) :
  0 <= A -> 0 <= B -> C * C <= A * B ->
  2 * x * y * C <= x * x * B + y * y * A.
Proof.
  intros HA HB HC.
  pose proof (Rle_0_sqr x) as Hx. unfold Rsqr in Hx.
  destruct (Req_dec_T A 0) as [->|HnA].
  - pose proof (Rle_0_sqr C) as H. unfold Rsqr in H.
    assert (C * C = 0) as Hz by lra.
    apply Rmult_integral in Hz.
    assert (C = 0) as -> by tauto.
    pose proof (Rmult_le_pos _ _ Hx HB). lra.
  - pose proof (Rle_0_sqr (x * C - y * A)) as H1. unfold Rsqr in H1.
    pose proof (Rmult_le_compat_l _ _ _ Hx HC) as H2.
    assert (A * 0 <= A * (x * x * B + y * y * A - 2 * x * y * C)) as H3 by lra.
    apply Rmult_le_reg_l in H3; lra.
Qed.

(** Cauchy and Schwarz, for the sums [np.dot] and [np.linalg.norm] take. *)
Lemma products_bound (v w : list R) :
  sum (map (fun p => fst p * snd p) (combine v w))
  * sum (map (fun p => fst p * snd p) (combine v w))
  <= sum (map (fun x => x * x) v) * sum (map (fun x => x * x) w).
Proof.
  revert w. induction v as [|x v IH]; intros [|y w]; simpl; try lra.
  specialize (IH w).
  set (C := sum (map (fun p => fst p * snd p) (combine v w))) in *.
  set (A := sum (map (fun x => x * x) v)) in *.
  set (B := sum (map (fun x => x * x) w)) in *.
  assert (0 <= A) as HA by apply sum_squares_nonneg.
  assert (0 <= B) as HB by apply sum_squares_nonneg.
  pose proof (cross_term x y A B C HA HB IH).
  lra.
Qed.

Lemma dot_bound (v w : list R) (x : R) :
  dot v w = Returns x -> - (norm v * norm w) <= x <= norm v * norm w.
Proof.
  unfold dot. destruct (List.length v =? List.length w)%nat; [|discriminate].
  intros H. injection H as <-.
  pose proof (products_bound v w) as Hb.
  rewrite <- (norm_sqr v), <- (norm_sqr w) in Hb.
  apply square_bound.
  - apply Rmult_le_pos; apply sqrt_pos.
  - lra.
Qed.

Lemma cosine_distance_cases (v w : list R) (f : float) :
  cosine_distance v w = Returns f ->
  (norm v * norm w = 0 /\ f = NaN)
  \/ (norm v * norm w <> 0
      /\ exists x, dot v w = Returns x /\ f = Finite (1 - x / (norm v * norm w))).
Proof.
  intros H. destruct (Req_dec_T (norm v * norm w) 0) as [Hz|Hnz].
  - left. split; [exact Hz|]. now apply (cosine_distance_nan v w).
  - right. split; [exact Hnz|].
    destruct (dot v w) as [x|e] eqn:Hd.
    + exists x. split; [reflexivity|].
      rewrite (cosine_distance_finite _ _ _ Hd Hnz) in H. now injection H as <-.
    + unfold cosine_distance in H. rewrite Hd in H. discriminate.
Qed.


Lemma sum_squares_scale (k : R) (v : list R) :
  sum (map (fun x => x * x) (map (Rmult k) v)) = k * k * sum (map (fun x => x * x) v).
Proof. induction v as [|x v IH]; simpl; [lra | rewrite IH; lra]. Qed.

Lemma norm_scale (k : R) (v : list R) : norm (map (Rmult k) v) = Rabs k * norm v.
Proof.
  unfold norm. rewrite sum_squares_scale, sqrt_mult.
  - f_equal. apply sqrt_Rsqr_abs.
  - pose proof (Rle_0_sqr k) as H. unfold Rsqr in H. exact H.
  - apply sum_squares_nonneg.
Qed.

Lemma products_scale (k : R) (v w : list R) :
  sum (map (fun p => fst p * snd p) (combine (map (Rmult k) v) w))
  = k * sum (map (fun p => fst p * snd p) (combine v w)).
Proof.
  revert w. induction v as [|x v IH]; intros [|y w]; simpl; try lra.
  rewrite IH. lra.
Qed.

Lemma dot_scale (k : R) (v w : list R) :
  dot (map (Rmult k) v) w
  = match dot v w with Returns x => Returns (k * x) | Raises e => Raises e end.
Proof.
  unfold dot. rewrite length_map.
  destruct (List.length v =? List.length w)%nat; [|reflexivity].
  now rewrite products_scale.
Qed.






(* ------------------------------------------------------------------ *)
(** ** The ranked pool *)
(* ------------------------------------------------------------------ *)

Lemma norm_ranked_T : norm Ranked.embedding_T = 5.
Proof. norm_is. Qed.

Lemma ranked_distance_T :
  cosine_distance Ranked.embedding_S Ranked.embedding_T = Returns (Finite 0.8).
Proof.
  rewrite (cosine_distance_finite _ _ (1 * 1 + (0 * 4 + (0 * 2 + (0 * 2 + (0 * 0 + 0)))))).
  - change Ranked.embedding_S with Scenario.embedding_A.
    rewrite norm_scenario_A, norm_ranked_T. do 2 f_equal. lra.
  - reflexivity.
  - change Ranked.embedding_S with Scenario.embedding_A.
    rewrite norm_scenario_A, norm_ranked_T. lra.
Qed.

Lemma scan_two_admitted (json_loads : string -> outcome (list R))
  (self : ContrastGenerator) (s t u : Lens.t) (vs : list R) (concepts : list string)
  (vt vu : list R) (dt du : float) (ct cu : Candidate.t) :
  visit_target json_loads self s vs concepts t = Returns (Measured vt dt (Some ct)) ->
  visit_target json_loads self s vs concepts u = Returns (Measured vu du (Some cu)) ->
  scan json_loads self s vs concepts [s; t; u] [] = Returns [ct; cu].
Proof.
  intros Ht Hu. simpl. rewrite visit_self. simpl. rewrite Ht. simpl. rewrite Hu.
  reflexivity.
Qed.

Lemma ranked_score_T :
  calculate_dialectic_score Ranked.lens_S Ranked.lens_T = 0.
Proof.
  rewrite dialectic_score_count.
  replace (opposed_count Ranked.lens_S Ranked.lens_T) with 0%nat by reflexivity.
  simpl INR. rewrite Rmin_left; lra.
Qed.

Lemma ranked_score_U :
  calculate_dialectic_score Ranked.lens_S Ranked.lens_U = 0.2.
Proof.
  rewrite dialectic_score_count.
  replace (opposed_count Ranked.lens_S Ranked.lens_U) with 1%nat by reflexivity.
  simpl INR. rewrite Rmin_left; lra.
Qed.

(** The candidates of S, in the order of the pool. *)
Lemma ranked_scan :
  scan no_json Ranked.generator Ranked.lens_S Ranked.embedding_S
    (concept_set Ranked.lens_S) (lenses Ranked.generator) []
  = Returns [ Candidate.make Ranked.lens_T 0.8 0 (0.8 * 0.7 + 0 * 0.3) ["economics"];
              Candidate.make Ranked.lens_U 0.75 0.2 (0.75 * 0.7 + 0.2 * 0.3)
                ["economics"] ].
Proof.
  change (lenses Ranked.generator) with [Ranked.lens_S; Ranked.lens_T; Ranked.lens_U].
  apply (scan_two_admitted no_json Ranked.generator _ _ _ _ _
           Ranked.embedding_T Ranked.embedding_U (Finite 0.8) (Finite 0.75)).
  - apply visit_target_measured. repeat split.
    + discriminate.
    + exact ranked_distance_T.
    + rewrite judge_Finite, ranked_score_T.
      replace (leb 0.65 0.8 && leb 0.8 0.92) with true; [reflexivity|].
      symmetry. apply andb_true_iff. split; apply leb_true; lra.
  - apply visit_target_measured. repeat split.
    + discriminate.
    + exact scenario_distance.
    + rewrite judge_Finite, ranked_score_U.
      replace (leb 0.65 0.75 && leb 0.75 0.92) with true; [reflexivity|].
      symmetry. apply andb_true_iff. split; apply leb_true; lra.
Qed.

(* ------------------------------------------------------------------ *)
(** ** The dialectic score *)
(* ------------------------------------------------------------------ *)

Lemma filter_length_le {A : Type} (f : A -> bool) (l : list A) :
  (List.length (filter f l) <= List.length l)%nat.
Proof. induction l as [|x l IH]; simpl; [lia | destruct (f x); simpl; lia]. Qed.

Lemma filter_length_pos {A : Type} (f : A -> bool) (l : list A) (x : A) :
  In x l -> f x = true -> (1 <= List.length (filter f l))%nat.
Proof.
  intros Hin Hf.
  assert (In x (filter f l)) as H by (apply filter_In; auto).
  destruct (filter f l); [destruct H | simpl; lia].
Qed.

Lemma Substring_trans (a b c : string) :
  Substring a b -> Substring b c -> Substring a c.
Proof.
  intros (p & q & ->) (p' & q' & ->).
  exists (p' ++ p)%string, (q ++ q')%string.
  induction p' as [|ch p' IH]; simpl.
  - clear. induction p as [|ch p IH]; simpl.
    + induction a as [|ch a IH]; simpl; [reflexivity | now rewrite IH].
    + now rewrite IH.
  - now rewrite IH.
Qed.

(** X15.  The dialectic score does not depend on which of the two lenses is
    the source, and it is one of 0, 0.2, 0.4, 0.6, 0.8 and 1: a fifth of the
    number of opposing pairs found, five or more pairs giving 1. *)
Theorem dialectic_score_symmetric_on_grid :
  forall a b : Lens.t,
    calculate_dialectic_score a b = calculate_dialectic_score b a
    /\ exists n : nat,
         (n <= 5)%nat
         /\ n = Nat.min (opposed_count a b) 5
         /\ calculate_dialectic_score a b = 0.2 * INR n.
Proof.
  intros a b. split; [apply dialectic_score_sym|].
  exists (Nat.min (opposed_count a b) 5). split; [lia|]. split; [reflexivity|].
  rewrite dialectic_score_count.
  destruct (Nat.le_gt_cases (opposed_count a b) 5) as [Hle|Hgt].
  - rewrite Nat.min_l by exact Hle. apply Rmin_left.
    apply le_INR in Hle. simpl INR in Hle. lra.
  - rewrite Nat.min_r by lia. simpl INR. rewrite Rmin_right; [lra|].
    apply Nat.lt_le_incl, le_INR in Hgt. simpl INR in Hgt. lra.
Qed.

(** X16.  The keyword test is substring containment, and two of the table's
    words occur inside their own opposites: two definitions that both contain
    "decentralized", or both contain "informal" (in any letter case), score
    at least 0.2 although neither contains the opposite idea. *)
Theorem word_inside_its_opposite_scores :
  forall a b : Lens.t,
    (Substring "decentralized" (lower (Lens.definition a))
     /\ Substring "decentralized" (lower (Lens.definition b)))
    \/ (Substring "informal" (lower (Lens.definition a))
        /\ Substring "informal" (lower (Lens.definition b))) ->
    0.2 <= calculate_dialectic_score a b.
Proof.
  intros a b H.
  assert (exists pair, In pair dialectic_pairs
            /\ opposed (lower (Lens.definition a)) (lower (Lens.definition b)) pair
               = true) as (pair & Hin & Hop).
  { destruct H as [[Ha Hb]|[Ha Hb]].
    - exists ("centralized", "decentralized"). split; [simpl; tauto|].
      apply opposed_Opposed. left. split; [|exact Hb].
      apply Substring_trans with (b := "decentralized"); [|exact Ha].
      now exists "de", "".
    - exists ("formal", "informal"). split; [simpl; tauto|].
      apply opposed_Opposed. left. split; [|exact Hb].
      apply Substring_trans with (b := "informal"); [|exact Ha].
      now exists "in", "". }
  rewrite dialectic_score_count.
  pose proof (filter_length_pos _ _ _ Hin Hop) as Hn.
  fold (opposed_count a b) in Hn. apply le_INR in Hn. simpl INR in Hn.
  unfold Rmin. destruct (Rle_dec _ 1); lra.
Qed.

(** X16 at two definitions that speak of decentralisation only. *)
Lemma word_inside_its_opposite_scores_witness :
  0.2 <= calculate_dialectic_score
           (Lens.make "a" "Ledgers" "A Decentralized ledger" [] "concept")
           (Lens.make "b" "Teams" "Teams that are decentralized" [] "concept").
Proof.
  apply word_inside_its_opposite_scores. left. split.
  - now exists "a ", " ledger".
  - now exists "teams that are ", "".
Defined.

(* ------------------------------------------------------------------ *)
(** ** The insight text *)
(* ------------------------------------------------------------------ *)

Lemma substring_prefix (n : nat) (s : string) :
  exists rest : string,
    s = (substring 0 n s ++ rest)%string
    /\ String.length (substring 0 n s) = Nat.min n (String.length s).
Proof.
  revert s. induction n as [|n IH]; intros s.
  - exists s. destruct s; split; reflexivity.
  - destruct s as [|c s].
    + exists "". split; reflexivity.
    + destruct (IH s) as (rest & Hs & Hl). exists rest. simpl. split.
      * now rewrite <- Hs.
      * now rewrite Hl.
Qed.


(* ------------------------------------------------------------------ *)
(** ** The weight of a record *)
(* ------------------------------------------------------------------ *)

Lemma round_half_even_mono (x y : R) :
  x <= y -> (round_half_even x <= round_half_even y)%Z.
Proof.
  intros Hxy.
  destruct (Z_le_gt_dec (round_half_even x) (round_half_even y)) as [|Hgt];
    [assumption|].
  pose proof (round_half_even_near x) as Hx.
  pose proof (round_half_even_near y) as Hy.
  assert (round_half_even y + 1 <= round_half_even x)%Z as Hz by lia.
  apply IZR_le in Hz. rewrite plus_IZR in Hz.
  assert (x = y) as Heq by lra.
  rewrite Heq in Hgt. lia.
Qed.

Lemma round_mono (x y : R) (n : nat) : x <= y -> round x n <= round y n.
Proof.
  intros Hxy. unfold round. pose proof (pow10_pos n) as Hp.
  apply Rmult_le_compat_r.
  - left. now apply Rinv_0_lt_compat.
  - apply IZR_le, round_half_even_mono, Rmult_le_compat_r; lra.
Qed.

Lemma py_min_mono (c a b : R) : a <= b -> Py.min c a <= Py.min c b.
Proof. intros H. unfold Py.min. destruct (Rlt_dec a c), (Rlt_dec b c); lra. Qed.

Lemma py_max_mono (c a b : R) : a <= b -> Py.max c a <= Py.max c b.
Proof. intros H. unfold Py.max. destruct (Rlt_dec c a), (Rlt_dec c b); lra. Qed.

(** X18.  The weight never decreases when the combined score increases: a
    candidate that ranks higher gets a weight at least as large. *)
Theorem contrast_weight_monotone :
  forall c1 c2 : R, c1 <= c2 -> contrast_weight c1 <= contrast_weight c2.
Proof.
  intros c1 c2 H. unfold contrast_weight.
  apply py_max_mono, py_min_mono, round_mono. lra.
Qed.

(** X18 at the combined scores 0.56 and 0.585. *)
Lemma contrast_weight_monotone_witness :
  contrast_weight 0.56 <= contrast_weight 0.585.
Proof. apply contrast_weight_monotone. lra. Defined.

(** X4 at the source S of the ranked pool, with a limit of 1. *)
Lemma candidates_ranked_and_cut_witness :
  exists kept dropped : list Candidate.t,
    find_contrast_candidates no_json Ranked.generator Ranked.lens_S 1 = Returns kept
    /\ Permutation (kept ++ dropped)
         [ Candidate.make Ranked.lens_T 0.8 0 (0.8 * 0.7 + 0 * 0.3) ["economics"];
           Candidate.make Ranked.lens_U 0.75 0.2 (0.75 * 0.7 + 0.2 * 0.3)
             ["economics"] ]
    /\ StronglySorted
         (fun a b => Candidate.combined_score b <= Candidate.combined_score a) kept
    /\ (forall c d, In c kept -> In d dropped ->
                    Candidate.combined_score d <= Candidate.combined_score c)
    /\ ((0 <= 1)%Z ->
        List.length kept
        = Nat.min (Z.to_nat 1)
            (List.length
               [ Candidate.make Ranked.lens_T 0.8 0 (0.8 * 0.7 + 0 * 0.3) ["economics"];
                 Candidate.make Ranked.lens_U 0.75 0.2 (0.75 * 0.7 + 0.2 * 0.3)
                   ["economics"] ])).
Proof.
  apply (candidates_ranked_and_cut no_json Ranked.generator Ranked.lens_S 1
           Ranked.embedding_S).
  - reflexivity.
  - exact ranked_scan.
Defined.

(** X5 at the source S of the ranked pool: U, admitted after T, is the best. *)
Lemma best_candidate_is_first_maximum_witness :
  exists (best : Candidate.t) (rest before after : list Candidate.t),
    find_contrast_candidates no_json Ranked.generator Ranked.lens_S 3
    = Returns (best :: rest)
    /\ [ Candidate.make Ranked.lens_T 0.8 0 (0.8 * 0.7 + 0 * 0.3) ["economics"];
         Candidate.make Ranked.lens_U 0.75 0.2 (0.75 * 0.7 + 0.2 * 0.3) ["economics"] ]
       = (before ++ best :: after)%list
    /\ Forall (fun c => Candidate.combined_score c < Candidate.combined_score best)
              before
    /\ Forall (fun c => Candidate.combined_score c <= Candidate.combined_score best)
              after.
Proof.
  apply (best_candidate_is_first_maximum no_json Ranked.generator Ranked.lens_S 3
           Ranked.embedding_S).
  - reflexivity.
  - exact ranked_scan.
  - discriminate.
  - lia.
Defined.

(* ------------------------------------------------------------------ *)
(** ** Failing lenses during re-embedding *)
(* ------------------------------------------------------------------ *)

Section ReembedIsolation.
Variable database : Type.
Variable generate_query_embedding : string -> outcome (list R).
Variable update_embedding : database -> string -> list R -> outcome database.

(** The store after the loop depends on the store before it, not on the
    counters. *)
Lemma reembed_loop_store (lenses : list Lens.t) (st1 st2 : progress database) :
  store st1 = store st2 ->
  store (reembed_loop generate_query_embedding update_embedding lenses st1)
  = store (reembed_loop generate_query_embedding update_embedding lenses st2).
Proof.
  revert st1 st2. induction lenses as [|lens lenses IH]; intros st1 st2 H.
  - exact H.
  - unfold reembed_loop in *. cbn [fold_left]. apply IH.
    unfold reembed_step. rewrite H.
    now destruct (embed_one generate_query_embedding update_embedding (store st2) lens).
Qed.

(** X19.  When the store accepts every update, the lenses whose text the
    model cannot embed leave no trace but their count: the error count grows
    by their number, the update count by the number of the others, and the
    store ends as after a run over the other lenses alone. *)
Theorem unembeddable_lenses_only_count :
  forall (lenses : list Lens.t) (st : progress database),
    (forall (db : database) (lens_id : string) (embedding : list R),
        exists db' : database, update_embedding db lens_id embedding = Returns db') ->
    let embeddable := fun lens : Lens.t =>
      match generate_query_embedding (Lens.name lens ++ ": " ++ Lens.definition lens) with
      | Returns _ => true
      | Raises _ => false
      end in
    let final := reembed_loop generate_query_embedding update_embedding lenses st in
    errors final
    = (errors st + List.length (filter (fun lens => negb (embeddable lens)) lenses))%nat
    /\ updated final = (updated st + List.length (filter embeddable lenses))%nat
    /\ store final
       = store (reembed_loop generate_query_embedding update_embedding
                  (filter embeddable lenses) st).
Proof.
  intros lenses st Hupd embeddable final. subst final. revert st.
  induction lenses as [|lens lenses IH]; intros st.
  - simpl. repeat split; lia.
  - change (reembed_loop generate_query_embedding update_embedding (lens :: lenses) st)
      with (reembed_loop generate_query_embedding update_embedding lenses
              (reembed_step generate_query_embedding update_embedding st lens)).
    destruct (IH (reembed_step generate_query_embedding update_embedding st lens))
      as (IHe & IHu & IHs).
    rewrite IHe, IHu, IHs. cbn [filter].
    destruct (generate_query_embedding (Lens.name lens ++ ": " ++ Lens.definition lens))
      as [embedding|e] eqn:Hg.
    + assert (embeddable lens = true) as ->
        by (unfold embeddable; now rewrite Hg).
      destruct (Hupd (store st) (Lens.id lens) embedding) as [db' Hdb'].
      assert (reembed_step generate_query_embedding update_embedding st lens
              = {| store := db'; updated := S (updated st); errors := errors st |})
        as Hstep.
      { unfold reembed_step, embed_one. rewrite Hg. cbn [bind]. now rewrite Hdb'. }
      change (reembed_loop generate_query_embedding update_embedding
                (lens :: filter embeddable lenses) st)
        with (reembed_loop generate_query_embedding update_embedding
                (filter embeddable lenses)
                (reembed_step generate_query_embedding update_embedding st lens)).
      rewrite Hstep. cbn [negb List.length store updated errors].
      repeat split; lia.
    + assert (embeddable lens = false) as ->
        by (unfold embeddable; now rewrite Hg).
      assert (reembed_step generate_query_embedding update_embedding st lens
              = {| store := store st; updated := updated st; errors := S (errors st) |})
        as Hstep.
      { unfold reembed_step, embed_one. now rewrite Hg. }
      rewrite Hstep. cbn [negb List.length store updated errors].
      repeat split; try lia.
      now apply reembed_loop_store.
Qed.

End ReembedIsolation.

(** X19 at three lenses, the second of which cannot be embedded. *)
Lemma unembeddable_lenses_only_count_witness :
  errors (reembed_loop Reembedding.generate_query_embedding Reembedding.update_embedding
            [Reembedding.good1; Reembedding.broken; Reembedding.good2]
            {| store := 0%nat; updated := 0; errors := 0 |}) = 1%nat
  /\ updated (reembed_loop Reembedding.generate_query_embedding
                Reembedding.update_embedding
                [Reembedding.good1; Reembedding.broken; Reembedding.good2]
                {| store := 0%nat; updated := 0; errors := 0 |}) = 2%nat
  /\ store (reembed_loop Reembedding.generate_query_embedding
              Reembedding.update_embedding
              [Reembedding.good1; Reembedding.broken; Reembedding.good2]
              {| store := 0%nat; updated := 0; errors := 0 |}) = 2%nat.
Proof.
  apply (unembeddable_lenses_only_count nat Reembedding.generate_query_embedding
           Reembedding.update_embedding
           [Reembedding.good1; Reembedding.broken; Reembedding.good2]
           {| store := 0%nat; updated := 0; errors := 0 |}).
  intros db lens_id embedding. now exists (S db).
Defined.

(* ------------------------------------------------------------------ *)
(** ** The embedding audit *)
(* ------------------------------------------------------------------ *)

(** The analysis loop appends each row to the list of its kind. *)
Lemma classify_fold (lenses : list LensRow.t) (w n o : list LensRow.t) :
  fold_left classify lenses (w, n, o)
  = ((w ++ filter (fun lens => match LensRow.embedding lens with
                               | Array (_ :: _) => true
                               | _ => false
                               end) lenses)%list,
     (n ++ filter (fun lens => match LensRow.embedding lens with
                               | Null => true
                               | _ => false
                               end) lenses)%list,
     (o ++ filter (fun lens => match LensRow.embedding lens with
                               | Array [] | Text _ => true
                               | _ => false
                               end) lenses)%list).
Proof.
  revert w n o. induction lenses as [|lens lenses IH]; intros w n o; simpl.
  - now rewrite !app_nil_r.
  - destruct (LensRow.embedding lens) as [|[|x xs]|s]; rewrite IH, <- ?app_assoc; reflexivity.
Qed.

Section AuditFacts.
Variable client : Type.
Variable create_client : string -> string -> outcome client.
Variable select_lenses : client -> outcome (list LensRow.t).

Lemma check_embeddings_returns (supabase_url supabase_key : option string)
  (stats : Stats.t) :
  check_embeddings create_client select_lenses supabase_url supabase_key
  = Returns (Some stats) ->
  exists (url key : string) (supabase : client) (lenses : list LensRow.t),
    supabase_url = Some url /\ supabase_key = Some key
    /\ url <> "" /\ key <> ""
    /\ create_client url key = Returns supabase
    /\ select_lenses supabase = Returns lenses
    /\ stats
       = Stats.make (List.length lenses)
           (filter (fun lens => match LensRow.embedding lens with
                                | Array (_ :: _) => true
                                | _ => false
                                end) lenses)
           (filter (fun lens => match LensRow.embedding lens with
                                | Null => true
                                | _ => false
                                end) lenses)
           (filter (fun lens => match LensRow.embedding lens with
                                | Array [] | Text _ => true
                                | _ => false
                                end) lenses).
Proof.
  unfold check_embeddings.
  destruct supabase_url as [url|], supabase_key as [key|]; try discriminate.
  destruct (String.eqb_spec url "") as [|Hu]; [discriminate|].
  destruct (String.eqb_spec key "") as [|Hk]; [discriminate|]. cbn [orb].
  destruct (create_client url key) as [supabase|e] eqn:Hc; [|discriminate].
  cbn [bind].
  destruct (select_lenses supabase) as [lenses|e] eqn:Hl; [|discriminate].
  cbn [bind]. rewrite classify_fold. cbn [app]. intros H. injection H as <-.
  exists url, key, supabase, lenses. repeat split; assumption.
Qed.

(** X20.  When the audit returns statistics it has sorted every row the
    store delivered into exactly one of its three lists, each list keeping
    the order of the rows: [with_embeddings] holds the rows with a non-empty
    native array, [null_embeddings] those with SQL null, and
    [without_embeddings] the rest, an empty array or text.  [total] is the
    number of rows, and the three lengths add up to it. *)
Theorem audit_partitions_rows :
  forall (supabase_url supabase_key : option string) (stats : Stats.t),
    check_embeddings create_client select_lenses supabase_url supabase_key
    = Returns (Some stats) ->
    exists (url key : string) (supabase : client) (lenses : list LensRow.t),
      supabase_url = Some url /\ supabase_key = Some key
      /\ create_client url key = Returns supabase
      /\ select_lenses supabase = Returns lenses
      /\ Stats.total stats = List.length lenses
      /\ (List.length (Stats.with_embeddings stats)
          + List.length (Stats.null_embeddings stats)
          + List.length (Stats.without_embeddings stats) = Stats.total stats)%nat
      /\ (forall lens : LensRow.t,
            (In lens (Stats.with_embeddings stats)
             <-> In lens lenses /\ exists x xs, LensRow.embedding lens = Array (x :: xs))
            /\ (In lens (Stats.null_embeddings stats)
                <-> In lens lenses /\ LensRow.embedding lens = Null)
            /\ (In lens (Stats.without_embeddings stats)
                <-> In lens lenses
                    /\ (LensRow.embedding lens = Array []
                        \/ exists s, LensRow.embedding lens = Text s)))
      /\ (exists keep : LensRow.t -> bool,
            Stats.with_embeddings stats = filter keep lenses)
      /\ (exists keep : LensRow.t -> bool,
            Stats.null_embeddings stats = filter keep lenses)
      /\ (exists keep : LensRow.t -> bool,
            Stats.without_embeddings stats = filter keep lenses).
Proof.
  intros supabase_url supabase_key stats H.
  apply check_embeddings_returns in H
    as (url & key & supabase & lenses & -> & -> & _ & _ & Hc & Hl & ->).
  exists url, key, supabase, lenses. cbn [Stats.total Stats.with_embeddings
    Stats.null_embeddings Stats.without_embeddings].
  split; [reflexivity|]. split; [reflexivity|]. split; [exact Hc|].
  split; [exact Hl|]. split; [reflexivity|]. split.
  { clear. induction lenses as [|lens lenses IH]; [reflexivity|]. cbn [filter].
    destruct (LensRow.embedding lens) as [|[|x xs]|s]; cbn [List.length]; lia. }
  split; [|repeat split; eexists; reflexivity].
  intros lens. rewrite !filter_In.
  destruct (LensRow.embedding lens) as [|[|x xs]|s].
  - split; [|split]; split; try tauto.
    + intros [_ Hk]. discriminate.
    + intros [_ (x & xs & He)]. discriminate.
    + intros [_ Hk]. discriminate.
    + intros [_ [He|(s & He)]]; discriminate.
  - split; [|split]; split; try tauto.
    + intros [_ Hk]. discriminate.
    + intros [_ (x & xs & He)]. discriminate.
    + intros [_ Hk]. discriminate.
    + intros [_ He]. discriminate.
  - split; [|split]; split; try tauto.
    + intros [Hin _]. split; [exact Hin|]. now exists x, xs.
    + intros [_ Hk]. discriminate.
    + intros [_ He]. discriminate.
    + intros [_ Hk]. discriminate.
    + intros [_ [He|(s & He)]]; discriminate.
  - split; [|split]; split; try tauto.
    + intros [_ Hk]. discriminate.
    + intros [_ (x & xs & He)]. discriminate.
    + intros [_ Hk]. discriminate.
    + intros [_ He]. discriminate.
    + intros [Hin _]. split; [exact Hin|]. right. now exists s.
Qed.

End AuditFacts.

Section AuditAndAccessor.
Variable json_loads : string -> outcome (list R).
Variable client : Type.
Variable create_client : string -> string -> outcome client.
Variable select_lenses : client -> outcome (list LensRow.t).

(** X21.  The audit and the generator's accessor read the same column with
    different tests.  For a row the audit has listed and a generator whose
    store answers that row's id with that row's embedding: a row under
    [with_embeddings] has an embedding the accessor returns, a row under
    [null_embeddings] has none for the accessor either, but a row whose
    embedding arrives as text that decodes is listed under
    [without_embeddings] (empty or invalid) while the accessor returns its
    decoded embedding. *)
Theorem audit_and_accessor_differ_on_text :
  forall (supabase_url supabase_key : option string) (stats : Stats.t)
         (self : ContrastGenerator) (lens : LensRow.t),
    check_embeddings create_client select_lenses supabase_url supabase_key
    = Returns (Some stats) ->
    supabase self (LensRow.id lens) = Returns (Some (LensRow.embedding lens)) ->
    (In lens (Stats.with_embeddings stats) ->
     exists x xs, LensRow.embedding lens = Array (x :: xs)
                  /\ get_lens_embedding json_loads self (LensRow.id lens)
                     = Returns (Some (x :: xs)))
    /\ (In lens (Stats.null_embeddings stats) ->
        get_lens_embedding json_loads self (LensRow.id lens) = Returns None)
    /\ (forall (s : string) (decoded : list R),
          In lens (Stats.with_embeddings stats ++ Stats.null_embeddings stats
                   ++ Stats.without_embeddings stats) ->
          LensRow.embedding lens = Text s -> s <> "" ->
          json_loads s = Returns decoded ->
          In lens (Stats.without_embeddings stats)
          /\ get_lens_embedding json_loads self (LensRow.id lens)
             = Returns (Some decoded)).
Proof.
  intros supabase_url supabase_key stats self lens H Hstore.
  apply check_embeddings_returns in H
    as (url & key & supabase & lenses & _ & _ & _ & _ & _ & _ & ->).
  cbn [Stats.with_embeddings Stats.null_embeddings Stats.without_embeddings].
  rewrite get_lens_embedding_cases, Hstore. split; [|split].
  - intros [_ Hk]%filter_In. destruct (LensRow.embedding lens) as [|[|x xs]|s];
      try discriminate. now exists x, xs.
  - intros [_ Hk]%filter_In. destruct (LensRow.embedding lens) as [|[|x xs]|s];
      try discriminate. reflexivity.
  - intros s decoded Hin He Hs Hd. split.
    + rewrite !in_app_iff, !filter_In in Hin. apply filter_In. rewrite He.
      split; [tauto | reflexivity].
    + rewrite He. destruct (String.eqb_spec s ""); [contradiction|]. now rewrite Hd.
Qed.

End AuditAndAccessor.

(** X20 at the four audited rows. *)
Lemma audit_partitions_rows_witness :
  exists (url key : string) (supabase : unit) (lenses : list LensRow.t),
    Some "https://lenses.example" = Some url /\ Some "service-key" = Some key
    /\ Coverage.create_client url key = Returns supabase
    /\ Coverage.select_lenses supabase = Returns lenses
    /\ 4%nat = List.length lenses
    /\ (List.length [Coverage.row_native] + List.length [Coverage.row_null]
        + List.length [Coverage.row_empty; Coverage.row_text] = 4)%nat
    /\ (forall lens : LensRow.t,
          (In lens [Coverage.row_native]
           <-> In lens lenses /\ exists x xs, LensRow.embedding lens = Array (x :: xs))
          /\ (In lens [Coverage.row_null]
              <-> In lens lenses /\ LensRow.embedding lens = Null)
          /\ (In lens [Coverage.row_empty; Coverage.row_text]
              <-> In lens lenses
                  /\ (LensRow.embedding lens = Array []
                      \/ exists s, LensRow.embedding lens = Text s)))
    /\ (exists keep : LensRow.t -> bool, [Coverage.row_native] = filter keep lenses)
    /\ (exists keep : LensRow.t -> bool, [Coverage.row_null] = filter keep lenses)
    /\ (exists keep : LensRow.t -> bool,
          [Coverage.row_empty; Coverage.row_text] = filter keep lenses).
Proof.
  apply (audit_partitions_rows unit Coverage.create_client Coverage.select_lenses
           (Some "https://lenses.example") (Some "service-key")
           (Stats.make 4 [Coverage.row_native] [Coverage.row_null]
              [Coverage.row_empty; Coverage.row_text])).
  reflexivity.
Defined.

(** X21 at the row whose embedding is text. *)
Lemma audit_and_accessor_differ_on_text_witness :
  In Coverage.row_text [Coverage.row_empty; Coverage.row_text]
  /\ get_lens_embedding Coverage.json_loads Coverage.generator "lens_4"
     = Returns (Some [0.5; 1]).
Proof.
  refine (proj2 (proj2 (audit_and_accessor_differ_on_text Coverage.json_loads unit
            Coverage.create_client Coverage.select_lenses
            (Some "https://lenses.example") (Some "service-key")
            (Stats.make 4 [Coverage.row_native] [Coverage.row_null]
               [Coverage.row_empty; Coverage.row_text])
            Coverage.generator Coverage.row_text _ _))
          "[0.5, 1]" [0.5; 1] _ _ _ _);
    try reflexivity.
  - simpl. tauto.
  - discriminate.
Defined.

(* ------------------------------------------------------------------ *)
(** ** The two-lens scenario, source by source *)
(* ------------------------------------------------------------------ *)

Lemma scenario_score :
  calculate_dialectic_score Scenario.lens_A Scenario.lens_B = 0.2.
Proof.
  apply only_control_freedom; [reflexivity | reflexivity | exact scenario_other_pairs].
Qed.

Lemma scenario_band : leb 0.65 0.75 && leb 0.75 0.92 = true.
Proof. apply andb_true_iff. split; apply leb_true; lra. Qed.

Lemma scenario_candidates_A :
  find_contrast_candidates no_json Scenario.generator Scenario.lens_A 3
  = Returns [Candidate.make Scenario.lens_B 0.75 0.2 (0.75 * 0.7 + 0.2 * 0.3) ["ai"]].
Proof.
  assert (visit_target no_json Scenario.generator Scenario.lens_A Scenario.embedding_A
            (concept_set Scenario.lens_A) Scenario.lens_B
          = Returns (Measured Scenario.embedding_B (Finite 0.75)
                       (Some (Candidate.make Scenario.lens_B 0.75 0.2
                                (0.75 * 0.7 + 0.2 * 0.3) ["ai"])))) as Hv.
  { apply visit_target_measured. repeat split.
    - discriminate.
    - exact scenario_distance.
    - rewrite judge_Finite, scenario_band, scenario_score. reflexivity. }
  unfold find_contrast_candidates.
  change (get_lens_embedding no_json Scenario.generator (Lens.id Scenario.lens_A))
    with (Returns (A := option (list R)) (Some Scenario.embedding_A)).
  cbn [bind].
  change (lenses Scenario.generator) with [Scenario.lens_A; Scenario.lens_B].
  cbn [scan]. rewrite visit_self. cbn [bind]. rewrite Hv. reflexivity.
Qed.

Lemma scenario_candidates_B :
  find_contrast_candidates no_json Scenario.generator Scenario.lens_B 3
  = Returns [Candidate.make Scenario.lens_A 0.75 0.2 (0.75 * 0.7 + 0.2 * 0.3) ["ai"]].
Proof.
  assert (visit_target no_json Scenario.generator Scenario.lens_B Scenario.embedding_B
            (concept_set Scenario.lens_B) Scenario.lens_A
          = Returns (Measured Scenario.embedding_A (Finite 0.75)
                       (Some (Candidate.make Scenario.lens_A 0.75 0.2
                                (0.75 * 0.7 + 0.2 * 0.3) ["ai"])))) as Hv.
  { apply visit_target_measured. repeat split.
    - discriminate.
    - rewrite cosine_distance_comm. exact scenario_distance.
    - rewrite judge_Finite, scenario_band, dialectic_score_sym, scenario_score.
      reflexivity. }
  unfold find_contrast_candidates.
  change (get_lens_embedding no_json Scenario.generator (Lens.id Scenario.lens_B))
    with (Returns (A := option (list R)) (Some Scenario.embedding_B)).
  cbn [bind].
  change (lenses Scenario.generator) with [Scenario.lens_A; Scenario.lens_B].
  cbn [scan]. rewrite Hv. cbn [bind app]. rewrite visit_self. reflexivity.
Qed.

(** X8 at the two-lens scenario, where the search returns for both sources. *)
Lemma run_is_one_record_per_source_witness :
  generate_contrasts no_json Scenario.generator None
  = Returns (flat_map
               (fun s =>
                  match returned (find_contrast_candidates no_json Scenario.generator s 3)
                  with
                  | best :: _ => [contrast_of s best]
                  | [] => []
                  end) (get_uncovered_lenses Scenario.generator)).
Proof.
  apply (proj1 (run_is_one_record_per_source no_json Scenario.generator)).
  intros s [<-|[<-|[]]]; eexists.
  - exact scenario_candidates_A.
  - exact scenario_candidates_B.
Defined.

(** X9 at the two-lens scenario with a limit of 1. *)
Lemma limit_bounds_the_batch_witness :
  (List.length (returned (generate_contrasts no_json Scenario.generator (Some 1%Z)))
   <= Z.to_nat 1)%nat.
Proof.
  apply (proj1 (proj2 (limit_bounds_the_batch no_json Scenario.generator))). lia.
Defined.
